(** * zemacs fuzzing campaign runner ([fuzz_runner.py])

    A shallow embedding of [run_fuzz] and its two generators.  The script is
    a single loop over an iteration index; each pass draws a payload, starts
    the harness, feeds it the payload, and saves the payload when the harness
    times out or returns a non-zero code.

    What the script gets from outside is kept abstract:
    - the [random] module (a seeded generator) is a state type [G] with the
      three calls the script makes: [random.random], [random.randint] and
      [random.choice];
    - [os.urandom] reads operating-system entropy [E], which no seed controls;
    - the harness is an oracle [target] telling, for each start, whether the
      start fails, the process returns a code in time, or the wait expires;
    - the disk is an oracle [disk] telling which file operations fail.

    Everything the script does to the outside is logged as a list of events,
    so that properties about order (what is written before what is started)
    can be stated on the log. *)

From Stdlib Require Import ZArith List Lia Strings.Byte.
From stdpp Require Import gmap strings list pretty.

Local Open Scope Z_scope.

(** ** Module constants (lines 7-9) *)

Definition HARNESS : string := "./zemacs-fuzz".
Definition ITERATIONS : nat := 5000.
Definition CRASHES_DIR : string := "crashes".

(** ** Bytes *)

Abbreviation bytes := (list byte).

(** [chars] of [generate_json_garbage] (line 16): braces, double and single
    quote, colon, comma, square brackets, the ten digits and the letters a
    to f, in the order of the literal. *)
Definition chars : bytes :=
  [ x7b; x7d; x22; x27; x3a; x2c; x5b; x5d;
    x30; x31; x32; x33; x34; x35; x36; x37; x38; x39;
    x61; x62; x63; x64; x65; x66 ]%list.

(** ** Floats drawn by [random.random]

    [random.random()] returns a double [k / 2^53] with [0 <= k < 2^53]; the
    draw is represented by its numerator [k].  The literal [0.5] is exactly
    [2^52 / 2^53]; the literal [0.9] is the double nearest to nine tenths,
    [8106479329266893 / 2^53]. *)

Definition two53 : Z := 2 ^ 53.

Definition lt_0_5 (k : Z) : bool := k <? 2 ^ 52.
Definition lt_0_9 (k : Z) : bool := k <? 8106479329266893.

(** ** Observable events *)

Inductive message :=
| MsgStart (iterations : nat)
| MsgTimeout (size : nat)
| MsgCrash (returncode : Z)
| MsgProgress (i : nat)
| MsgComplete
| MsgTotal (crashes : nat)
| MsgSuccess
| MsgFailure.

Inductive event :=
| EvMakedirs (path : string)
| EvPrint (m : message)
| EvPopen (pid : nat)
| EvCommunicate (pid : nat) (input : bytes)
| EvReturned (pid : nat) (returncode : Z)
| EvTimeoutExpired (pid : nat)
| EvKill (pid : nat)
| EvOpen (path : string)
| EvWrite (path : string) (data : bytes)
| EvClose (path : string)
| EvFlushFailed (path : string).

(** ** The outside world *)

(** What a started harness does with its input: it returns a code before
    the wait of one second is over, or it does not. *)
Inductive behaviour :=
| Exits (returncode : Z)
| Hangs.

(** What the disk does to one [with open(path, mode wb)] block. *)
Inductive disk_behaviour :=
| DiskOk
| OpenFails
| FlushFails.

Inductive os_error :=
| ErrMakedirs
| ErrPopen
| ErrOpen (path : string)
| ErrFlush (path : string).

(** Python exceptions that leave [run_fuzz]. *)
Inductive exn :=
| SystemExit (code : Z)
| OSError (e : os_error).

(** Exit status of the interpreter: the code given to [sys.exit], or 1 after
    an exception nobody caught. *)
Definition exit_status (e : exn) : Z :=
  match e with
  | SystemExit code => code
  | OSError _ => 1
  end.

(** File names of lines 50 and 57. *)
Definition timeout_path (i : nat) : string :=
  CRASHES_DIR +:+ "/timeout_" +:+ pretty i +:+ ".bin".
Definition crash_path (i : nat) : string :=
  CRASHES_DIR +:+ "/crash_" +:+ pretty i +:+ ".bin".

Arguments timeout_path : simpl never.
Arguments crash_path : simpl never.

(** ** Reading the log *)

(** Processes started, in order. *)
Definition spawned (tr : list event) : list nat :=
  omap (fun ev => match ev with EvPopen pid => Some pid | _ => None end) tr.

(** Payloads delivered, in order. *)
Definition delivered (tr : list event) : list (nat * bytes) :=
  omap (fun ev => match ev with
                  | EvCommunicate pid input => Some (pid, input)
                  | _ => None
                  end) tr.

(** Files whose content reached the disk and which were closed, in order. *)
Definition closed_files (tr : list event) : list string :=
  omap (fun ev => match ev with EvClose path => Some path | _ => None end) tr.

(** The [f.write] calls, in order. *)
Definition written (tr : list event) : list (string * bytes) :=
  omap (fun ev => match ev with
                  | EvWrite path data => Some (path, data)
                  | _ => None
                  end) tr.

(** File objects still open at the end of the log. *)
Definition open_step (acc : list string) (ev : event) : list string :=
  match ev with
  | EvOpen path => path :: acc
  | EvClose path | EvFlushFailed path =>
      filter (fun q => q <> path) acc
  | _ => acc
  end.
Definition open_files (tr : list event) : list string := foldl open_step [] tr.

(** ** Outcomes, as the specification names them *)

Inductive Outcome :=
| Normal (exitCode : Z)
| AbnormalExit (exitCode : Z)
| Timeout.

(** The outcome of the execution of process [pid] as the script treats it,
    read from what the script does: a process it kills (line 47, in the
    handler of the expired wait) is a timeout; a process that returned is an
    abnormal exit when the next thing the script does is to report a crash
    (line 56, behind the test of line 55) and a normal exit otherwise. *)
Fixpoint reactions (pid : nat) (tr : list event) : list Outcome :=
  match tr with
  | [] => []
  | EvKill p :: rest =>
      if bool_decide (p = pid) then Timeout :: reactions pid rest
      else reactions pid rest
  | EvReturned p returncode :: rest =>
      if bool_decide (p = pid) then
        match rest with
        | EvPrint (MsgCrash reported) :: _ => AbnormalExit reported
        | _ => Normal returncode
        end :: reactions pid rest
      else reactions pid rest
  | _ :: rest => reactions pid rest
  end.

Inductive Verdict := Success | FailureDetected.

(** The verdict line printed at the end of a campaign. *)
Definition verdict_of (tr : list event) : option Verdict :=
  match last tr with
  | Some (EvPrint MsgSuccess) => Some Success
  | Some (EvPrint MsgFailure) => Some FailureDetected
  | _ => None
  end.

(** ** Test doubles

    A generator that reads its draws from a list, and entropy that is a list
    of bytes; both return zeros once the list is used up. *)

Module Tape.

Definition random (g : list Z) : Z * list Z :=
  (hd 0 g mod 2 ^ 53, tl g).

Definition randint (a b : Z) (g : list Z) : Z * list Z :=
  (a + hd 0 g mod (b - a + 1), tl g).

Definition choice (seq : bytes) (g : list Z) : byte * list Z :=
  (nth (Z.to_nat (hd 0 g mod Z.of_nat (length seq))) seq x00, tl g).

Definition urandom (n : nat) (e : bytes) : bytes * bytes :=
  (take n (e ++ replicate n x00), drop n e).

End Tape.

Section Campaign.

(** The seeded generator of the [random] module. *)
Context {G : Type}.
Variable random_random : G -> Z * G.
Variable random_randint : Z -> Z -> G -> Z * G.
Variable random_choice : bytes -> G -> byte * G.

(** Operating-system entropy behind [os.urandom]. *)
Context {E : Type}.
Variable os_urandom : nat -> E -> bytes * E.

(** The harness: whether the start of iteration [i] fails, and what the
    started process does with its input.  The disk, by path. *)
Variable spawn_fails : nat -> bool.
Variable target : nat -> bytes -> behaviour.
Variable disk : string -> disk_behaviour.
Variable makedirs_fails : bool.

(** *** Generators *)

Record sources := mkSources { rng : G; entropy : E }.

Definition Gen (A : Type) : Type := sources -> A * sources.

Definition with_rng {A} (f : G -> A * G) : Gen A := fun src =>
  let '(a, g) := f (rng src) in (a, mkSources g (entropy src)).

Definition with_entropy {A} (f : E -> A * E) : Gen A := fun src =>
  let '(a, e) := f (entropy src) in (a, mkSources (rng src) e).

(** Lines 11-12. *)
Definition generate_garbage (length : nat) : Gen bytes :=
  with_entropy (os_urandom length).

(** [random.choice(chars) for _ in range(length)] *)
Fixpoint choices (length : nat) (g : G) : bytes * G :=
  match length with
  | O => ([], g)
  | S n =>
      let '(c, g1) := random_choice chars g in
      let '(cs, g2) := choices n g1 in
      (c :: cs, g2)
  end.

(** The generator state after [k] calls of [random.choice(chars)]. *)
Definition after_choices (k : nat) (g : G) : G :=
  Nat.iter k (fun g0 => (random_choice chars g0).2) g.

(** Lines 14-18. *)
Definition generate_json_garbage : Gen bytes :=
  with_rng (fun g =>
    let '(length, g1) := random_randint 10 1000 g in
    choices (Z.to_nat length) g1).

(** Lines 30-36: the strategy mix. *)
Definition generate : Gen bytes := fun src =>
  let '(rand, src1) := with_rng random_random src in
  if lt_0_5 rand then
    let '(n, src2) := with_rng (random_randint 1 1024) src1 in
    generate_garbage (Z.to_nat n) src2
  else if lt_0_9 rand then
    generate_json_garbage src1
  else
    ([], src1).

(** *** State and exceptions *)

Record state := mkState {
  src : sources;                 (* generator state and entropy *)
  dir_exists : bool;             (* os.path.exists(CRASHES_DIR) *)
  files : gmap string bytes;     (* content of the files on disk *)
  crashes : nat;                 (* the local variable of line 25 *)
  trace : list event             (* log, oldest event first *)
}.

Inductive result (A : Type) :=
| Ok (a : A) (s : state)
| Raise (e : exn) (s : state).
Arguments Ok {A} a s.
Arguments Raise {A} e s.

Definition M (A : Type) : Type := state -> result A.

#[local] Instance M_ret : MRet M := fun A a s => Ok a s.
#[local] Instance M_bind : MBind M := fun A B k m s =>
  match m s with
  | Ok a s1 => k a s1
  | Raise e s1 => Raise e s1
  end.

Definition raise {A} (e : exn) : M A := fun s => Raise e s.

Definition emit (ev : event) : M unit := fun s =>
  Ok tt (mkState (src s) (dir_exists s) (files s) (crashes s) (trace s ++ [ev])).

Definition set_file (path : string) (content : bytes) : M unit := fun s =>
  Ok tt (mkState (src s) (dir_exists s) (<[path := content]> (files s))
                 (crashes s) (trace s)).

Definition set_crashes (c : nat) : M unit := fun s =>
  Ok tt (mkState (src s) (dir_exists s) (files s) c (trace s)).

Definition get_crashes : M nat := fun s => Ok (crashes s) s.

Definition lift_gen {A} (g : Gen A) : M A := fun s =>
  let '(a, src1) := g (src s) in
  Ok a (mkState src1 (dir_exists s) (files s) (crashes s) (trace s)).

Definition print (m : message) : M unit := emit (EvPrint m).

(** *** Library calls of [run_fuzz] *)

Definition os_path_exists : M bool := fun s => Ok (dir_exists s) s.

Definition os_makedirs (path : string) : M unit := fun s =>
  if makedirs_fails then Raise (OSError ErrMakedirs) s
  else Ok tt (mkState (src s) true (files s) (crashes s)
                      (trace s ++ [EvMakedirs path])).

(** [subprocess.Popen([HARNESS], ...)], lines 38-43.  The process of
    iteration [i] is named [i]. *)
Definition Popen (i : nat) : M unit :=
  if spawn_fails i then raise (OSError ErrPopen) else emit (EvPopen i).

Inductive communicated :=
| Returned (returncode : Z)
| TimeoutExpired.

(** [process.communicate(input=data, timeout=1)], line 45: the payload is
    written to the standard input, which is then closed; on return the
    process has been waited for and [returncode] is set; on expiry the
    process is left as it is. *)
Definition communicate (i : nat) (data : bytes) : M communicated :=
  emit (EvCommunicate i data) ;;
  match target i data with
  | Exits rc => emit (EvReturned i rc) ;; mret (Returned rc)
  | Hangs => emit (EvTimeoutExpired i) ;; mret TimeoutExpired
  end.

(** [process.kill()], line 47, on a process that is still running: the
    signal is sent and the call returns; it does not wait for the process
    to end. *)
Definition kill (i : nat) : M unit := emit (EvKill i).

(** [open(path, mode wb)]: the file is created or cut to length zero. *)
Definition open_wb (path : string) : M unit :=
  match disk path with
  | OpenFails => raise (OSError (ErrOpen path))
  | _ => set_file path [] ;; emit (EvOpen path)
  end.

(** [f.write(data)]: the data go to the buffer of the file object. *)
Definition f_write (path : string) (data : bytes) : M bytes :=
  emit (EvWrite path data) ;; mret data.

(** Leaving the [with] block closes the file, which flushes the buffer.
    [EvClose] is logged once the content is on disk and the file closed. *)
Definition f_close (path : string) (buffer : bytes) : M unit :=
  match disk path with
  | FlushFails => emit (EvFlushFailed path) ;; raise (OSError (ErrFlush path))
  | _ => set_file path buffer ;; emit (EvClose path)
  end.

(** [with open(path, mode wb) as f: f.write(data)], lines 50-51 and 57-58. *)
Definition save (path : string) (data : bytes) : M unit :=
  open_wb path ;;
  buffer ← f_write path data ;
  f_close path buffer.

Definition sys_exit {A} (code : Z) : M A := raise (SystemExit code).

(** *** The campaign *)

(** [for i in l: body(i)] *)
Fixpoint for_in (l : list nat) (body : nat -> M unit) : M unit :=
  match l with
  | [] => mret tt
  | i :: l' => body i ;; for_in l' body
  end.

Definition range (n : nat) : list nat := seq 0 n.

(** Lines 29-62, one pass of the loop. *)
Definition iteration (i : nat) : M unit :=
  data ← lift_gen generate ;
  Popen i ;;
  r ← communicate i data ;
  match r with
  | TimeoutExpired =>
      kill i ;;
      print (MsgTimeout (length data)) ;;
      save (timeout_path i) data ;;
      c ← get_crashes ;
      set_crashes (c + 1)
      (* continue *)
  | Returned returncode =>
      (if bool_decide (returncode ≠ 0) then
         print (MsgCrash returncode) ;;
         save (crash_path i) data ;;
         c ← get_crashes ;
         set_crashes (c + 1)
       else mret tt) ;;
      if bool_decide (i mod 1000 = 0)%nat then print (MsgProgress i)
      else mret tt
  end.

(** The same pass cut in two after the [with] block (after line 51 on the
    timeout path, after line 58 otherwise): what is done up to there, and
    what is left to do. *)
Definition pass_until_saved (i : nat) : M communicated :=
  data ← lift_gen generate ;
  Popen i ;;
  r ← communicate i data ;
  match r with
  | TimeoutExpired =>
      kill i ;;
      print (MsgTimeout (length data)) ;;
      save (timeout_path i) data ;;
      mret r
  | Returned returncode =>
      (if bool_decide (returncode ≠ 0) then
         print (MsgCrash returncode) ;;
         save (crash_path i) data
       else mret tt) ;;
      mret r
  end.

Definition pass_after_saved (i : nat) (r : communicated) : M unit :=
  match r with
  | TimeoutExpired =>
      c ← get_crashes ;
      set_crashes (c + 1)
  | Returned returncode =>
      (if bool_decide (returncode ≠ 0) then
         c ← get_crashes ;
         set_crashes (c + 1)
       else mret tt) ;;
      if bool_decide (i mod 1000 = 0)%nat then print (MsgProgress i)
      else mret tt
  end.

(** Lines 20-73, with the number of iterations as an argument. *)
Definition run_fuzz_with (iterations : nat) : M unit :=
  e ← os_path_exists ;
  (if negb e then os_makedirs CRASHES_DIR else mret tt) ;;
  print (MsgStart iterations) ;;
  set_crashes 0 ;;
  for_in (range iterations) iteration ;;
  print MsgComplete ;;
  c ← get_crashes ;
  print (MsgTotal c) ;;
  if bool_decide (c = 0)%nat then
    print MsgSuccess ;; sys_exit 0
  else
    print MsgFailure ;; sys_exit 1.

Definition run_fuzz : M unit := run_fuzz_with ITERATIONS.

(** *** One pass of the loop in closed form *)

Definition state_of {A} (r : result A) : state :=
  match r with Ok _ s => s | Raise _ s => s end.

(** The file a pass saves, if any: its path and the payload. *)
Definition artifact (i : nat) (data : bytes) : option (string * bytes) :=
  match target i data with
  | Hangs => Some (timeout_path i, data)
  | Exits returncode =>
      if bool_decide (returncode ≠ 0) then Some (crash_path i, data)
      else None
  end.

(** The harness fault a pass runs into, if any. *)
Definition fault (i : nat) (data : bytes) : option os_error :=
  if spawn_fails i then Some ErrPopen
  else match artifact i data with
       | Some (path, _) =>
           match disk path with
           | DiskOk => None
           | OpenFails => Some (ErrOpen path)
           | FlushFails => Some (ErrFlush path)
           end
       | None => None
       end.

Definition save_events (path : string) (data : bytes) : list event :=
  match disk path with
  | DiskOk => [EvOpen path; EvWrite path data; EvClose path]
  | OpenFails => []
  | FlushFails => [EvOpen path; EvWrite path data; EvFlushFailed path]
  end.

(** What a pass adds to the log. *)
Definition iteration_events (i : nat) (data : bytes) : list event :=
  if spawn_fails i then []
  else
    [EvPopen i; EvCommunicate i data] ++
    match target i data with
    | Hangs =>
        [EvTimeoutExpired i; EvKill i; EvPrint (MsgTimeout (length data))]
        ++ save_events (timeout_path i) data
    | Exits returncode =>
        [EvReturned i returncode] ++
        (if bool_decide (returncode ≠ 0) then
           EvPrint (MsgCrash returncode) :: save_events (crash_path i) data
         else []) ++
        (match fault i data with
         | None =>
             if bool_decide (i mod 1000 = 0)%nat
             then [EvPrint (MsgProgress i)] else []
         | Some _ => []
         end)
    end.

(** The state after a pass without harness fault. *)
Definition iteration_state (i : nat) (s : state) : state :=
  let '(data, src1) := generate (src s) in
  mkState src1 (dir_exists s)
    (match artifact i data with
     | Some (path, content) => <[path := content]> (files s)
     | None => files s
     end)
    (match artifact i data with
     | Some _ => crashes s + 1
     | None => crashes s
     end)%nat
    (trace s ++ iteration_events i data).

(** The state after [n] passes without harness fault. *)
Fixpoint loop_state (n : nat) (s : state) : state :=
  match n with
  | O => s
  | S k => iteration_state k (loop_state k s)
  end.

(** The payload of pass [i] of a loop started in [s]. *)
Definition payload (s : state) (i : nat) : bytes :=
  (generate (src (loop_state i s))).1.

(** The files the first [n] passes save, in order. *)
Definition artifacts (s : state) (n : nat) : list (string * bytes) :=
  omap (fun i => artifact i (payload s i)) (range n).

(** What is logged before the loop, and the state in which the loop
    starts (lines 21-26). *)
Definition opening_events (iterations : nat) (s : state) : list event :=
  (if dir_exists s then [] else [EvMakedirs CRASHES_DIR])
  ++ [EvPrint (MsgStart iterations)].

Definition start_state (iterations : nat) (s : state) : state :=
  mkState (src s) true (files s) 0 (trace s ++ opening_events iterations s).

(** What the first [n] passes add to the log. *)
Definition loop_events (s : state) (n : nat) : list event :=
  concat (map (fun i => iteration_events i (payload s i)) (range n)).

(** The lines printed after the loop (lines 65-72). *)
Definition closing_events (c : nat) : list event :=
  [EvPrint MsgComplete; EvPrint (MsgTotal c);
   EvPrint (if bool_decide (c = 0)%nat then MsgSuccess else MsgFailure)].

(** The state in which a campaign without harness fault exits. *)
Definition final_state (iterations : nat) (s : state) : state :=
  let s1 := loop_state iterations (start_state iterations s) in
  mkState (src s1) (dir_exists s1) (files s1) (crashes s1)
    (trace s1 ++ closing_events (crashes s1)).

Definition put_file (m : gmap string bytes) (a : string * bytes)
  : gmap string bytes := <[a.1 := a.2]> m.

(** No harness fault in the first [n] passes of a loop started in [s]. *)
Definition fault_free (s : state) (n : nat) : Prop :=
  forall i, (i < n)%nat -> fault i (payload s i) = None.

(** The campaign started in [s] runs into harness fault [err]: the
    directory cannot be made, or some pass is the first with a fault. *)
Definition harness_fault (iterations : nat) (s : state) (err : os_error)
  : Prop :=
  (dir_exists s = false /\ makedirs_fails = true /\ err = ErrMakedirs) \/
  ((dir_exists s = true \/ makedirs_fails = false) /\
   exists i, (i < iterations)%nat /\
             fault_free (start_state iterations s) i /\
             fault i (payload (start_state iterations s) i) = Some err).

(** The generator state and entropy after [n] payloads, and the payload
    number [i]: functions of the two sources of randomness alone. *)
Fixpoint sources_after (n : nat) (src0 : sources) : sources :=
  match n with
  | O => src0
  | S k => (generate (sources_after k src0)).2
  end.

Definition nth_payload (src0 : sources) (i : nat) : bytes :=
  (generate (sources_after i src0)).1.

(** What was logged between state [s] and the later state [s']. *)
Definition events_since (s s' : state) : list event :=
  drop (length (trace s)) (trace s').

(** Whether the wait expired. *)
Definition is_hang (b : behaviour) : bool :=
  match b with Hangs => true | Exits _ => false end.

(** A behaviour the script counts as a failure (lines 46 and 55). *)
Definition is_failure (b : behaviour) : bool :=
  match b with
  | Hangs => true
  | Exits returncode => negb (returncode =? 0)
  end.

(** The passes among the first [n] that failed. *)
Definition failures (s : state) (n : nat) : list nat :=
  filter (fun i => is_failure (target i (payload s i)) = true) (range n).

(** The passes for which line 62 prints a progress line: the index is a
    multiple of 1000 and the pass was not cut short by [continue]. *)
Definition progress_due (s : state) (i : nat) : bool :=
  bool_decide (i mod 1000 = 0)%nat && negb (is_hang (target i (payload s i))).

(** The indices of the progress lines in a log, and the directories made. *)
Definition progress_lines (tr : list event) : list nat :=
  omap (fun ev => match ev with
                  | EvPrint (MsgProgress i) => Some i
                  | _ => None
                  end) tr.

Definition makedirs_calls (tr : list event) : list string :=
  omap (fun ev => match ev with EvMakedirs path => Some path | _ => None end)
       tr.

(** The four lines printed after the loop. *)
Definition is_closing (ev : event) : bool :=
  match ev with
  | EvPrint MsgComplete | EvPrint (MsgTotal _)
  | EvPrint MsgSuccess | EvPrint MsgFailure => true
  | _ => false
  end.

Definition no_closing (tr : list event) : bool :=
  forallb (fun ev => negb (is_closing ev)) tr.

(** *** The pass, case by case *)

#[local] Arguments Nat.modulo : simpl never.
#[local] Arguments bool_decide : simpl never.

Ltac unfold_pass :=
  unfold iteration, iteration_state, iteration_events, fault, artifact,
    save, save_events, open_wb, f_write, f_close, Popen, communicate, kill,
    print, emit, set_file, set_crashes, get_crashes, lift_gen, sys_exit,
    raise, mbind, M_bind, mret, M_ret in *.

Ltac tidy :=
  cbn [src dir_exists files crashes trace fst snd app state_of omap
       list_omap option_list fmap list_fmap length foldl open_step
       mbind option_bind] in *.

(* Case analysis on everything the outside world decides in the goal. *)
Ltac split_pass :=
  repeat first
    [ progress tidy
    | match goal with
      | |- context [spawn_fails ?i] => destruct (spawn_fails i) eqn:?
      | |- context [target ?i ?d] => destruct (target i d) eqn:?
      | |- context [bool_decide ?P] => destruct (bool_decide P) eqn:?
      | |- context [disk ?p] => destruct (disk p) eqn:?
      end ].

Lemma iteration_ok i s :
  fault i (generate (src s)).1 = None ->
  iteration i s = Ok tt (iteration_state i s).
Proof.
  unfold_pass. destruct (generate (src s)) as [data src1]. tidy.
  split_pass; intros Hf; try discriminate;
    rewrite ?insert_insert_eq, <- ?app_assoc; reflexivity.
Qed.

Lemma iteration_raise i s err :
  fault i (generate (src s)).1 = Some err ->
  exists s',
    iteration i s = Raise (OSError err) s' /\
    src s' = (generate (src s)).2 /\
    dir_exists s' = dir_exists s /\
    crashes s' = crashes s /\
    trace s' = trace s ++ iteration_events i (generate (src s)).1 /\
    files s' = match err with
               | ErrFlush path => <[path := []]> (files s)
               | _ => files s
               end.
Proof.
  unfold_pass. destruct (generate (src s)) as [data src1]. tidy.
  split_pass; intros Hf; try discriminate; inversion Hf; subst;
    eexists; (split; [reflexivity|]); tidy;
    rewrite <- ?app_assoc, ?app_nil_r; auto.
Qed.

Lemma iteration_split i s :
  iteration i s = (r ← pass_until_saved i ; pass_after_saved i r) s.
Proof.
  unfold pass_until_saved, pass_after_saved. unfold_pass.
  destruct (generate (src s)) as [data src1]. tidy.
  split_pass; try congruence; reflexivity.
Qed.

(** *** The loop *)

Lemma for_in_app l1 l2 body s :
  for_in (l1 ++ l2) body s =
  match for_in l1 body s with
  | Ok _ s1 => for_in l2 body s1
  | Raise e s1 => Raise e s1
  end.
Proof.
  revert s. induction l1 as [|i l1 IH]; intros s; simpl.
  - reflexivity.
  - unfold mbind, M_bind. destruct (body i s) as [[] s1|e s1]; auto.
Qed.

Lemma for_in_snoc n s :
  for_in (range (S n)) iteration s =
  match for_in (range n) iteration s with
  | Ok _ s1 => iteration n s1
  | Raise e s1 => Raise e s1
  end.
Proof.
  unfold range. rewrite seq_S, for_in_app. simpl.
  destruct (for_in (seq 0 n) iteration s) as [[] s1|e s1]; auto.
  unfold mbind, M_bind, mret, M_ret.
  destruct (iteration n s1) as [[] s2|e s2]; auto.
Qed.

Lemma fault_free_S s n :
  fault_free s (S n) <->
  fault_free s n /\ fault n (payload s n) = None.
Proof.
  unfold fault_free. split.
  - intros H. split; [intros i Hi; apply H; lia | apply H; lia].
  - intros [H Hn] i Hi. destruct (decide (i = n)) as [->|]; auto.
    apply H. lia.
Qed.

Lemma loop_ok n s :
  fault_free s n ->
  for_in (range n) iteration s = Ok tt (loop_state n s).
Proof.
  induction n as [|n IH]; intros Hff.
  - reflexivity.
  - apply fault_free_S in Hff as [Hff Hn].
    rewrite for_in_snoc, IH by assumption. simpl.
    apply iteration_ok. exact Hn.
Qed.

Lemma loop_inv n s s' :
  for_in (range n) iteration s = Ok tt s' ->
  s' = loop_state n s /\ fault_free s n.
Proof.
  revert s'. induction n as [|n IH]; intros s' Hrun.
  - simpl in Hrun. inversion Hrun. split; [reflexivity|].
    intros i Hi. lia.
  - rewrite for_in_snoc in Hrun.
    destruct (for_in (range n) iteration s) as [[] s1|e s1];
      [|discriminate].
    destruct (IH s1 eq_refl) as [-> Hff].
    destruct (fault n (payload s n)) as [err|] eqn:Hn.
    + destruct (iteration_raise n (loop_state n s) err Hn)
        as (s2 & Hr & _). congruence.
    + rewrite (iteration_ok n (loop_state n s) Hn) in Hrun.
      inversion Hrun. split; [reflexivity|].
      apply fault_free_S. auto.
Qed.

Lemma loop_raise n s e s' :
  for_in (range n) iteration s = Raise e s' ->
  exists i err,
    (i < n)%nat /\ fault_free s i /\
    fault i (payload s i) = Some err /\
    e = OSError err /\
    iteration i (loop_state i s) = Raise (OSError err) s'.
Proof.
  induction n as [|n IH]; intros Hrun.
  - discriminate.
  - rewrite for_in_snoc in Hrun.
    destruct (for_in (range n) iteration s) as [[] s1|e1 s1] eqn:Hn.
    + apply loop_inv in Hn as [-> Hff].
      destruct (fault n (payload s n)) as [err|] eqn:Hf.
      * destruct (iteration_raise n (loop_state n s) err Hf)
          as (s2 & Hr & _).
        exists n, err. rewrite Hr in Hrun. inversion Hrun; subst.
        repeat split; auto.
      * rewrite (iteration_ok n (loop_state n s) Hf) in Hrun.
        discriminate.
    + inversion Hrun; subst.
      destruct (IH eq_refl) as (i & err & Hi & H).
      exists i, err. split; [lia | exact H].
Qed.

(** *** The loop state, field by field *)

Lemma loop_events_S s n :
  loop_events s (S n) =
  loop_events s n ++ iteration_events n (payload s n).
Proof.
  unfold loop_events, range. rewrite seq_S, map_app, concat_app. simpl.
  rewrite app_nil_r. reflexivity.
Qed.

Lemma artifacts_S s n :
  artifacts s (S n) =
  artifacts s n ++ option_list (artifact n (payload s n)).
Proof.
  unfold artifacts, range. rewrite seq_S, omap_app. simpl.
  destruct (artifact n (payload s n)); reflexivity.
Qed.

Lemma loop_state_S n s :
  loop_state (S n) s =
  let s1 := loop_state n s in
  mkState (generate (src s1)).2 (dir_exists s1)
    (foldl put_file (files s1) (option_list (artifact n (payload s n))))
    (crashes s1 + length (option_list (artifact n (payload s n))))%nat
    (trace s1 ++ iteration_events n (payload s n)).
Proof.
  simpl. unfold iteration_state, payload.
  destruct (generate (src (loop_state n s))) as [data src1]. simpl.
  destruct (artifact n data) as [[path content]|]; simpl;
    rewrite ?Nat.add_0_r; reflexivity.
Qed.

Lemma loop_state_trace n s :
  trace (loop_state n s) = trace s ++ loop_events s n.
Proof.
  induction n as [|n IH].
  - simpl. unfold loop_events. simpl. rewrite app_nil_r. reflexivity.
  - rewrite loop_state_S, loop_events_S. simpl. rewrite IH.
    rewrite app_assoc. reflexivity.
Qed.

Lemma loop_state_crashes n s :
  crashes (loop_state n s) = (crashes s + length (artifacts s n))%nat.
Proof.
  induction n as [|n IH].
  - simpl. unfold artifacts. simpl. lia.
  - rewrite loop_state_S, artifacts_S, length_app. simpl. rewrite IH. lia.
Qed.

Lemma loop_state_files n s :
  files (loop_state n s) = foldl put_file (files s) (artifacts s n).
Proof.
  induction n as [|n IH].
  - reflexivity.
  - rewrite loop_state_S, artifacts_S, foldl_app. simpl. rewrite IH.
    reflexivity.
Qed.

Lemma loop_state_dir n s : dir_exists (loop_state n s) = dir_exists s.
Proof.
  induction n as [|n IH]; [reflexivity|]. rewrite loop_state_S. exact IH.
Qed.

(** *** The whole campaign *)

Ltac unfold_run :=
  unfold run_fuzz_with, os_path_exists, os_makedirs, print, emit,
    set_crashes, get_crashes, sys_exit, raise, mbind, M_bind, mret, M_ret.

Lemma start_state_dir_ok iterations s :
  dir_exists s = true \/ makedirs_fails = false ->
  run_fuzz_with iterations s =
  match for_in (range iterations) iteration (start_state iterations s) with
  | Ok _ s1 =>
      Raise (SystemExit (if bool_decide (crashes s1 = 0)%nat then 0 else 1))
            (mkState (src s1) (dir_exists s1) (files s1) (crashes s1)
                     (trace s1 ++ closing_events (crashes s1)))
  | Raise e s1 => Raise e s1
  end.
Proof.
  intros Hdir. destruct s as [sr d f c t].
  unfold_run. unfold start_state, opening_events, closing_events. tidy.
  destruct d; cbn [negb]; tidy.
  - rewrite ?app_nil_r.
    destruct (for_in _ _ _) as [[] s1|e s1]; [|reflexivity].
    destruct (bool_decide (crashes s1 = 0%nat)); tidy;
      rewrite <- !app_assoc; reflexivity.
  - destruct Hdir as [Hd|Hd]; [discriminate|]. rewrite Hd.
    tidy. rewrite <- ?app_assoc. tidy.
    destruct (for_in _ _ _) as [[] s1|e s1]; [|reflexivity].
    destruct (bool_decide (crashes s1 = 0%nat)); tidy;
      rewrite <- !app_assoc; reflexivity.
Qed.

Lemma makedirs_fault iterations s :
  dir_exists s = false -> makedirs_fails = true ->
  run_fuzz_with iterations s = Raise (OSError ErrMakedirs) s.
Proof.
  intros Hd Hm. unfold_run. rewrite Hd, Hm. reflexivity.
Qed.

Lemma run_fuzz_ok iterations s :
  dir_exists s = true \/ makedirs_fails = false ->
  fault_free (start_state iterations s) iterations ->
  run_fuzz_with iterations s =
  Raise (SystemExit
           (if bool_decide (crashes (final_state iterations s) = 0)%nat
            then 0 else 1))
        (final_state iterations s).
Proof.
  intros Hdir Hff. rewrite start_state_dir_ok by assumption.
  rewrite loop_ok by assumption. reflexivity.
Qed.

Lemma run_fuzz_exit_inv iterations s code s' :
  run_fuzz_with iterations s = Raise (SystemExit code) s' ->
  (dir_exists s = true \/ makedirs_fails = false) /\
  fault_free (start_state iterations s) iterations /\
  s' = final_state iterations s /\
  code = if bool_decide (crashes s' = 0)%nat then 0 else 1.
Proof.
  intros Hrun.
  assert (Hdir : dir_exists s = true \/ makedirs_fails = false).
  { destruct (dir_exists s) eqn:Hd; [auto|].
    destruct makedirs_fails eqn:Hm; [|auto].
    rewrite makedirs_fault in Hrun by assumption. discriminate. }
  split; [exact Hdir|].
  rewrite start_state_dir_ok in Hrun by assumption.
  destruct (for_in _ _ _) as [[] s1|e s1] eqn:Hloop.
  - apply loop_inv in Hloop as [-> Hff].
    inversion Hrun; subst. repeat split; auto.
  - apply loop_raise in Hloop as (i & err & _ & _ & _ & -> & _).
    discriminate.
Qed.

Lemma run_fuzz_never_returns iterations s (s' : state) :
  run_fuzz_with iterations s <> Ok tt s'.
Proof.
  destruct (dir_exists s) eqn:Hd; [|destruct makedirs_fails eqn:Hm].
  - rewrite start_state_dir_ok by auto.
    destruct (for_in _ _ _); discriminate.
  - rewrite makedirs_fault by assumption. discriminate.
  - rewrite start_state_dir_ok by auto.
    destruct (for_in _ _ _); discriminate.
Qed.

Lemma run_fuzz_fault_inv iterations s err s' :
  run_fuzz_with iterations s = Raise (OSError err) s' ->
  (err = ErrMakedirs /\ s' = s /\
   dir_exists s = false /\ makedirs_fails = true) \/
  (exists i,
      (i < iterations)%nat /\
      fault_free (start_state iterations s) i /\
      fault i (payload (start_state iterations s) i) = Some err /\
      iteration i (loop_state i (start_state iterations s)) =
      Raise (OSError err) s').
Proof.
  intros Hrun.
  destruct (dir_exists s) eqn:Hd; [|destruct makedirs_fails eqn:Hm].
  2:{ rewrite makedirs_fault in Hrun by assumption.
      inversion Hrun; subst. left. auto. }
  all: right; rewrite start_state_dir_ok in Hrun by auto;
    destruct (for_in _ _ _) as [[] s1|e s1] eqn:Hloop;
    [discriminate|];
    apply loop_raise in Hloop as (i & err' & Hi & Hff & Hf & -> & Hit);
    inversion Hrun; subst; exists i; auto.
Qed.

(** *** Reading the log of one pass *)

Lemma iteration_trace i s :
  trace (state_of (iteration i s)) =
  trace s ++ iteration_events i (generate (src s)).1.
Proof.
  destruct (fault i (generate (src s)).1) as [err|] eqn:Hf.
  - destruct (iteration_raise i s err Hf) as (s' & -> & _ & _ & _ & Ht & _).
    exact Ht.
  - rewrite (iteration_ok i s Hf). simpl. unfold iteration_state.
    destruct (generate (src s)). reflexivity.
Qed.

Lemma spawned_iteration i data :
  spawned (iteration_events i data) = if spawn_fails i then [] else [i].
Proof.
  unfold spawned. unfold_pass. split_pass; reflexivity.
Qed.

Lemma delivered_iteration i data :
  delivered (iteration_events i data) =
  if spawn_fails i then [] else [(i, data)].
Proof.
  unfold delivered. unfold_pass. split_pass; reflexivity.
Qed.

Lemma written_iteration i data :
  fault i data = None ->
  written (iteration_events i data) = option_list (artifact i data).
Proof.
  unfold written. unfold_pass. intros Hf.
  split_pass; try discriminate; reflexivity.
Qed.

Lemma closed_iteration i data :
  closed_files (iteration_events i data) =
  match fault i data with
  | None => (option_list (artifact i data)).*1
  | Some _ => []
  end.
Proof.
  unfold closed_files. unfold_pass. split_pass; reflexivity.
Qed.

Lemma open_iteration i data :
  foldl open_step [] (iteration_events i data) = [].
Proof.
  unfold_pass. split_pass; try reflexivity;
    rewrite ?filter_cons_False, ?filter_nil by (intros H; apply H; reflexivity);
    reflexivity.
Qed.

Lemma reactions_iteration i data :
  spawn_fails i = false ->
  reactions i (iteration_events i data) =
  [match target i data with
   | Hangs => Timeout
   | Exits code =>
       if bool_decide (code ≠ 0) then AbnormalExit code else Normal code
   end].
Proof.
  intros Hs. unfold_pass. rewrite Hs.
  split_pass; cbn [reactions app];
    rewrite ?bool_decide_eq_true_2 by reflexivity; reflexivity.
Qed.

(** *** File names *)

Lemma list_ascii_of_append (a b : string) :
  String.list_ascii_of_string (a +:+ b) =
  (String.list_ascii_of_string a ++ String.list_ascii_of_string b)%list.
Proof.
  induction a as [|c a IH]; simpl; [reflexivity|]. rewrite IH. reflexivity.
Qed.

Lemma append_inj_r (a b suffix : string) :
  a +:+ suffix = b +:+ suffix -> a = b.
Proof.
  intros H. apply (f_equal String.list_ascii_of_string) in H.
  rewrite !list_ascii_of_append in H. apply app_inv_tail in H.
  rewrite <- (String.string_of_list_ascii_of_string a),
          <- (String.string_of_list_ascii_of_string b), H.
  reflexivity.
Qed.

Lemma timeout_path_inj i j : timeout_path i = timeout_path j -> i = j.
Proof.
  unfold timeout_path. intros H.
  apply String.app_inj in H. apply String.app_inj in H.
  apply append_inj_r in H. exact (pretty_nat_inj _ _ H).
Qed.

Lemma crash_path_inj i j : crash_path i = crash_path j -> i = j.
Proof.
  unfold crash_path. intros H.
  apply String.app_inj in H. apply String.app_inj in H.
  apply append_inj_r in H. exact (pretty_nat_inj _ _ H).
Qed.

Lemma timeout_crash_path i j : timeout_path i <> crash_path j.
Proof.
  unfold timeout_path, crash_path, CRASHES_DIR. intros H.
  apply (String.app_inj "crashes/") in H. discriminate H.
Qed.

Lemma artifact_inv i data path content :
  artifact i data = Some (path, content) ->
  content = data /\ (path = timeout_path i \/ path = crash_path i).
Proof.
  unfold artifact. destruct (target i data) as [rc|].
  - destruct (bool_decide (rc ≠ 0)); [|discriminate].
    intros H; inversion H; auto.
  - intros H; inversion H; auto.
Qed.

Lemma artifact_path_inj i j di dj path ci cj :
  artifact i di = Some (path, ci) ->
  artifact j dj = Some (path, cj) ->
  i = j.
Proof.
  intros Hi Hj.
  apply artifact_inv in Hi as [_ [Hi|Hi]];
    apply artifact_inv in Hj as [_ [Hj|Hj]]; subst path.
  - apply timeout_path_inj; assumption.
  - exfalso. exact (timeout_crash_path _ _ Hj).
  - exfalso. symmetry in Hj. exact (timeout_crash_path _ _ Hj).
  - apply crash_path_inj; assumption.
Qed.

(** *** Reading the log of the loop *)

Lemma fault_None_spawn i data :
  fault i data = None -> spawn_fails i = false.
Proof. unfold fault. destruct (spawn_fails i); [discriminate|auto]. Qed.

Lemma spawned_loop s n :
  fault_free s n -> spawned (loop_events s n) = range n.
Proof.
  induction n as [|n IH]; intros Hff; [reflexivity|].
  apply fault_free_S in Hff as [Hff Hn].
  rewrite loop_events_S. unfold spawned in *. rewrite omap_app, IH by done.
  fold (spawned (iteration_events n (payload s n))).
  rewrite spawned_iteration, (fault_None_spawn _ _ Hn).
  unfold range. rewrite seq_S. reflexivity.
Qed.

Lemma delivered_loop s n :
  fault_free s n ->
  delivered (loop_events s n) = map (fun i => (i, payload s i)) (range n).
Proof.
  induction n as [|n IH]; intros Hff; [reflexivity|].
  apply fault_free_S in Hff as [Hff Hn].
  rewrite loop_events_S. unfold delivered in *. rewrite omap_app, IH by done.
  fold (delivered (iteration_events n (payload s n))).
  rewrite delivered_iteration, (fault_None_spawn _ _ Hn).
  unfold range. rewrite seq_S, map_app. reflexivity.
Qed.

Lemma written_loop s n :
  fault_free s n -> written (loop_events s n) = artifacts s n.
Proof.
  induction n as [|n IH]; intros Hff; [reflexivity|].
  apply fault_free_S in Hff as [Hff Hn].
  rewrite loop_events_S, artifacts_S. unfold written in *.
  rewrite omap_app, IH by done.
  fold (written (iteration_events n (payload s n))).
  rewrite written_iteration by done. reflexivity.
Qed.

Lemma closed_loop s n :
  fault_free s n -> closed_files (loop_events s n) = (artifacts s n).*1.
Proof.
  induction n as [|n IH]; intros Hff; [reflexivity|].
  apply fault_free_S in Hff as [Hff Hn].
  rewrite loop_events_S, artifacts_S, fmap_app. unfold closed_files in *.
  rewrite omap_app, IH by done.
  fold (closed_files (iteration_events n (payload s n))).
  rewrite closed_iteration, Hn. reflexivity.
Qed.

Lemma open_loop s n : open_files (loop_events s n) = [].
Proof.
  induction n as [|n IH]; [reflexivity|].
  rewrite loop_events_S. unfold open_files in *.
  rewrite foldl_app, IH. apply open_iteration.
Qed.

Lemma crashes_closed s n :
  fault_free s n ->
  crashes (loop_state n s) =
  (crashes s + length (closed_files (loop_events s n)))%nat.
Proof.
  intros Hff. rewrite loop_state_crashes, closed_loop by done.
  rewrite length_fmap. reflexivity.
Qed.

(** *** The saved files *)

Lemma artifacts_elem s n path content :
  (path, content) ∈ artifacts s n <->
  exists i, (i < n)%nat /\ artifact i (payload s i) = Some (path, content).
Proof.
  unfold artifacts, range. rewrite list_elem_of_omap. split.
  - intros (i & Hi & Ha). apply elem_of_seq in Hi. exists i. split; [lia|done].
  - intros (i & Hi & Ha). exists i. split; [|done].
    apply elem_of_seq. lia.
Qed.

Lemma artifacts_NoDup s n : NoDup (artifacts s n).*1.
Proof.
  induction n as [|n IH]; [constructor|].
  rewrite artifacts_S, fmap_app. apply NoDup_app. split; [exact IH|].
  split.
  - intros path Hin Hnew.
    apply list_elem_of_fmap in Hin as ([p c] & -> & Hin).
    apply artifacts_elem in Hin as (i & Hi & Ha).
    destruct (artifact n (payload s n)) as [[p' c']|] eqn:Hn;
      simpl in Hnew; [|inversion Hnew].
    apply list_elem_of_singleton in Hnew. simpl in Hnew. subst p'.
    pose proof (artifact_path_inj _ _ _ _ _ _ _ Ha Hn). lia.
  - destruct (artifact n (payload s n)) as [[p' c']|]; simpl.
    + apply NoDup_singleton.
    + constructor.
Qed.

Lemma put_files_lookup (l : list (string * bytes)) (m : gmap string bytes)
      path content :
  NoDup l.*1 -> (path, content) ∈ l ->
  foldl put_file m l !! path = Some content.
Proof.
  revert m. induction l as [|[p c] l IH] using rev_ind; intros m Hnd Hin.
  - inversion Hin.
  - rewrite foldl_app. simpl. unfold put_file at 1. simpl.
    rewrite fmap_app in Hnd. apply NoDup_app in Hnd as (Hnd & Hfresh & _).
    apply elem_of_app in Hin as [Hin|Hin].
    + rewrite lookup_insert_ne; [apply IH; assumption|].
      intros <-. apply (Hfresh p).
      * apply list_elem_of_fmap. exists (p, content). auto.
      * simpl. apply list_elem_of_singleton. reflexivity.
    + apply list_elem_of_singleton in Hin. inversion Hin; subst.
      apply lookup_insert_eq.
Qed.

Lemma loop_state_file n s i path content :
  (i < n)%nat ->
  artifact i (payload s i) = Some (path, content) ->
  files (loop_state n s) !! path = Some content.
Proof.
  intros Hi Ha. rewrite loop_state_files.
  apply put_files_lookup; [apply artifacts_NoDup|].
  apply artifacts_elem. eauto.
Qed.

(** *** Payloads depend on the two sources of randomness only *)

Lemma src_loop_state n s : src (loop_state n s) = sources_after n (src s).
Proof.
  induction n as [|n IH]; [reflexivity|].
  rewrite loop_state_S. simpl. rewrite IH. reflexivity.
Qed.

Lemma payload_pure s i : payload s i = nth_payload (src s) i.
Proof. unfold payload, nth_payload. rewrite src_loop_state. reflexivity. Qed.

(** *** The log of a whole campaign *)

Lemma events_since_app s s' ev :
  trace s' = trace s ++ ev -> events_since s s' = ev.
Proof.
  intros H. unfold events_since. rewrite H. apply drop_app_length.
Qed.

Lemma loop_events_since iterations s n :
  events_since s (loop_state n (start_state iterations s)) =
  opening_events iterations s ++ loop_events (start_state iterations s) n.
Proof.
  apply events_since_app. rewrite loop_state_trace. simpl.
  rewrite app_assoc. reflexivity.
Qed.

Lemma final_events_since iterations s :
  events_since s (final_state iterations s) =
  opening_events iterations s ++
  loop_events (start_state iterations s) iterations ++
  closing_events (crashes (final_state iterations s)).
Proof.
  apply events_since_app. unfold final_state. simpl.
  rewrite loop_state_trace. simpl. rewrite <- !app_assoc. reflexivity.
Qed.

Lemma opening_no_process iterations s :
  spawned (opening_events iterations s) = [] /\
  delivered (opening_events iterations s) = [] /\
  closed_files (opening_events iterations s) = [] /\
  written (opening_events iterations s) = [].
Proof.
  unfold opening_events. destruct (dir_exists s); repeat split; reflexivity.
Qed.

Lemma closing_no_process c :
  spawned (closing_events c) = [] /\
  delivered (closing_events c) = [] /\
  closed_files (closing_events c) = [] /\
  written (closing_events c) = [].
Proof. repeat split; reflexivity. Qed.

Lemma final_state_crashes iterations s :
  crashes (final_state iterations s) =
  length (artifacts (start_state iterations s) iterations).
Proof.
  unfold final_state. simpl. rewrite loop_state_crashes. reflexivity.
Qed.

(** *** Outcomes of one supervised execution *)

Lemma kill_iteration_hang i data :
  spawn_fails i = false -> target i data = Hangs ->
  EvKill i ∈ iteration_events i data.
Proof.
  intros Hs Ht. unfold iteration_events. rewrite Hs, Ht.
  rewrite !elem_of_app, !elem_of_cons. auto 10.
Qed.

Lemma kill_iteration_exit i data code :
  target i data = Exits code -> EvKill i ∉ iteration_events i data.
Proof.
  intros Ht. unfold_pass. rewrite Ht.
  split_pass; intros H;
    repeat (apply elem_of_cons in H as [H|H]; [discriminate|]);
    inversion H.
Qed.

Lemma pass_exit_zero i data :
  spawn_fails i = false -> target i data = Exits 0 ->
  written (iteration_events i data) = [].
Proof.
  intros Hs Ht. unfold written. unfold_pass. rewrite Hs, Ht.
  rewrite (bool_decide_eq_false_2 (0 ≠ 0)) by (intros H; apply H; reflexivity).
  split_pass; reflexivity.
Qed.

Lemma pass_exit_nonzero i data code :
  spawn_fails i = false -> target i data = Exits code -> code <> 0 ->
  EvPrint (MsgCrash code) ∈ iteration_events i data.
Proof.
  intros Hs Ht Hne. unfold iteration_events. rewrite Hs, Ht.
  rewrite bool_decide_eq_true_2 by assumption.
  rewrite !elem_of_app, !elem_of_cons. auto 10.
Qed.

(** C1. Every supervised execution -- every pass whose process could be
    started -- is treated by the script in exactly one of three ways.  When
    the wait expires the process is killed: [Timeout].  When the process
    returns code 0 the script reports no crash and writes nothing:
    [Normal].  When it returns another code the script reports a crash with
    that code: [AbnormalExit].  A process that returned is never killed. *)
Theorem C1_outcome_partition i s :
  spawn_fails i = false ->
  let data := (generate (src s)).1 in
  let log := events_since s (state_of (iteration i s)) in
  exists o,
    reactions i log = [o] /\
    (target i data = Hangs -> o = Timeout /\ (EvKill i ∈ log)) /\
    (forall code, target i data = Exits code ->
       (EvKill i ∉ log) /\
       (code = 0 -> o = Normal code /\ written log = []) /\
       (code <> 0 ->
        o = AbnormalExit code /\ (EvPrint (MsgCrash code) ∈ log))).
Proof.
  intros Hs data log.
  assert (Hlog : log = iteration_events i data).
  { apply events_since_app, iteration_trace. }
  rewrite Hlog, (reactions_iteration i data Hs).
  eexists. split; [reflexivity|]. split.
  - intros Ht. rewrite Ht. split; [reflexivity|].
    apply kill_iteration_hang; assumption.
  - intros code Ht. rewrite Ht. split; [|split].
    + eapply kill_iteration_exit; eassumption.
    + intros ->. split; [|apply pass_exit_zero; assumption].
      rewrite bool_decide_eq_false_2 by (intros H; apply H; reflexivity).
      reflexivity.
    + intros Hne. split; [|apply pass_exit_nonzero; assumption].
      rewrite bool_decide_eq_true_2 by assumption. reflexivity.
Qed.

(** *** Verdict *)

Lemma verdict_closing (l : list event) c :
  verdict_of (l ++ closing_events c) =
  Some (if bool_decide (c = 0)%nat then Success else FailureDetected).
Proof.
  unfold verdict_of, closing_events.
  change [EvPrint MsgComplete; EvPrint (MsgTotal c);
          EvPrint (if bool_decide (c = 0)%nat then MsgSuccess else MsgFailure)]
    with ([EvPrint MsgComplete; EvPrint (MsgTotal c)] ++
          [EvPrint (if bool_decide (c = 0)%nat then MsgSuccess
                    else MsgFailure)]).
  rewrite app_assoc, last_snoc.
  destruct (bool_decide (c = 0)%nat); reflexivity.
Qed.

(** C2. When a campaign runs to its end, the verdict printed is [Success]
    exactly when the crash counter is zero and [FailureDetected] otherwise,
    and the exit status of the process is 0 when the counter is zero and 1
    otherwise. *)
Theorem C2_verdict_and_exit_status iterations s code s' :
  run_fuzz_with iterations s = Raise (SystemExit code) s' ->
  (verdict_of (trace s') = Some Success <-> crashes s' = 0%nat) /\
  (verdict_of (trace s') = Some FailureDetected <-> crashes s' <> 0%nat) /\
  (crashes s' = 0%nat -> exit_status (SystemExit code) = 0) /\
  (crashes s' <> 0%nat -> exit_status (SystemExit code) = 1).
Proof.
  intros Hrun.
  apply run_fuzz_exit_inv in Hrun as (_ & _ & -> & ->).
  assert (Ht : trace (final_state iterations s) =
               trace (loop_state iterations (start_state iterations s)) ++
               closing_events (crashes (final_state iterations s)))
    by reflexivity.
  rewrite Ht, verdict_closing. cbn [exit_status].
  generalize (crashes (final_state iterations s)). intros c.
  destruct (bool_decide (c = 0)%nat) eqn:Hc;
    [apply bool_decide_eq_true_1 in Hc|apply bool_decide_eq_false_1 in Hc];
    repeat split; auto; try congruence; try discriminate.
Qed.

(** *** Saved payloads *)

Lemma loop_events_split s n i :
  (i < n)%nat ->
  exists after,
    loop_events s n =
    loop_events s i ++ iteration_events i (payload s i) ++ after.
Proof.
  induction n as [|n IH]; intros Hi; [lia|].
  rewrite loop_events_S.
  destruct (decide (i = n)) as [->|Hne].
  - exists []. rewrite app_nil_r. reflexivity.
  - destruct IH as [after Ha]; [lia|]. rewrite Ha.
    exists (after ++ iteration_events n (payload s n)).
    rewrite <- !app_assoc. reflexivity.
Qed.

Lemma closed_files_app l1 l2 :
  closed_files (l1 ++ l2) = closed_files l1 ++ closed_files l2.
Proof. apply omap_app. Qed.

Lemma final_closed_files iterations s :
  fault_free (start_state iterations s) iterations ->
  closed_files (events_since s (final_state iterations s)) =
  (artifacts (start_state iterations s) iterations).*1.
Proof.
  intros Hff. rewrite final_events_since, !closed_files_app.
  destruct (opening_no_process iterations s) as (_ & _ & -> & _).
  destruct (closing_no_process (crashes (final_state iterations s)))
    as (_ & _ & -> & _).
  rewrite closed_loop by assumption. rewrite app_nil_r. reflexivity.
Qed.

(** C3. In a campaign that runs to its end, a pass [i] that fails writes
    one file and closes one file: [timeout_<i>] when the wait expired,
    [crash_<i>] when the process returned a non-zero code.  What is
    written is the payload delivered in that pass, and that is what the
    file holds when the campaign exits.  No file name is closed twice in
    the campaign. *)
Theorem C3_one_artifact_per_failure iterations s code s' i :
  run_fuzz_with iterations s = Raise (SystemExit code) s' ->
  (i < iterations)%nat ->
  let data := payload (start_state iterations s) i in
  let pass := iteration_events i data in
  (exists before after, events_since s s' = before ++ pass ++ after) /\
  delivered pass = [(i, data)] /\
  (target i data = Hangs ->
     written pass = [(timeout_path i, data)] /\
     closed_files pass = [timeout_path i] /\
     files s' !! timeout_path i = Some data) /\
  (forall rc, target i data = Exits rc -> rc <> 0 ->
     written pass = [(crash_path i, data)] /\
     closed_files pass = [crash_path i] /\
     files s' !! crash_path i = Some data) /\
  NoDup (closed_files (events_since s s')).
Proof.
  intros Hrun Hi data pass.
  apply run_fuzz_exit_inv in Hrun as (_ & Hff & -> & _).
  pose proof (Hff i Hi) as Hfi. fold data in Hfi.
  assert (Hsaved : forall path,
             artifact i data = Some (path, data) ->
             written pass = [(path, data)] /\
             closed_files pass = [path] /\
             files (final_state iterations s) !! path = Some data).
  { intros path Ha. unfold pass.
    rewrite written_iteration, closed_iteration, Hfi, Ha by assumption.
    repeat split. unfold final_state. cbn [files].
    eapply loop_state_file; eassumption. }
  split; [|split; [|split; [|split]]].
  - rewrite final_events_since.
    destruct (loop_events_split (start_state iterations s) iterations i Hi)
      as [after Ha].
    rewrite Ha. fold data. fold pass.
    exists (opening_events iterations s ++
            loop_events (start_state iterations s) i).
    exists (after ++ closing_events (crashes (final_state iterations s))).
    rewrite <- !app_assoc. reflexivity.
  - unfold pass. rewrite delivered_iteration.
    rewrite (fault_None_spawn _ _ Hfi). reflexivity.
  - intros Ht. apply Hsaved. unfold artifact. rewrite Ht. reflexivity.
  - intros rc Ht Hrc. apply Hsaved. unfold artifact. rewrite Ht.
    rewrite bool_decide_eq_true_2 by assumption. reflexivity.
  - rewrite final_closed_files by assumption. apply artifacts_NoDup.
Qed.

(** *** Saved before the next pass *)

Lemma fault_flush_artifact i data path :
  fault i data = Some (ErrFlush path) ->
  exists content, artifact i data = Some (path, content).
Proof.
  unfold fault. destruct (spawn_fails i); [discriminate|].
  destruct (artifact i data) as [[p c]|]; [|discriminate].
  destruct (disk p); try discriminate.
  intros H; inversion H; subst. eauto.
Qed.

Lemma save_block i data path content :
  fault i data = None ->
  artifact i data = Some (path, content) ->
  exists before after,
    iteration_events i data =
    before ++ [EvOpen path; EvWrite path content; EvClose path] ++ after /\
    spawned after = [].
Proof.
  unfold_pass. split_pass; intros Hf Ha; try discriminate;
    inversion Ha; subst.
  - exists [EvPopen i; EvCommunicate i content; EvReturned i returncode;
            EvPrint (MsgCrash returncode)], [EvPrint (MsgProgress i)].
    split; reflexivity.
  - exists [EvPopen i; EvCommunicate i content; EvReturned i returncode;
            EvPrint (MsgCrash returncode)], [].
    split; reflexivity.
  - exists [EvPopen i; EvCommunicate i content; EvTimeoutExpired i;
            EvKill i; EvPrint (MsgTimeout (length content))], [].
    split; reflexivity.
Qed.

Lemma persisted s i path content n :
  fault_free s (S i) ->
  artifact i (payload s i) = Some (path, content) ->
  (i < n)%nat ->
  files (state_of (for_in (range n) iteration s)) !! path = Some content.
Proof.
  intros Hff Ha Hin.
  destruct (for_in (range n) iteration s) as [[] s'|e s'] eqn:Hrun.
  - apply loop_inv in Hrun as [-> _]. simpl.
    eapply loop_state_file; eassumption.
  - apply loop_raise in Hrun as (j & err & Hj & _ & Hfj & _ & Hit).
    assert (Hij : (i < j)%nat).
    { destruct (decide (i < j)%nat) as [|Hge]; [assumption|].
      rewrite (Hff j) in Hfj by lia. discriminate. }
    destruct (iteration_raise j (loop_state j s) err Hfj)
      as (s2 & Hr & _ & _ & _ & _ & Hfiles).
    rewrite Hr in Hit. inversion Hit; subst s2. simpl. rewrite Hfiles.
    destruct err as [| |p|p]; try (eapply loop_state_file; eassumption).
    apply fault_flush_artifact in Hfj as [c Hc].
    rewrite lookup_insert_ne.
    + eapply loop_state_file; eassumption.
    + intros ->. pose proof (artifact_path_inj _ _ _ _ _ _ _ Ha Hc). lia.
Qed.

(** C4. When a pass [i] fails and meets no harness fault, then at the
    moment the loop goes on to pass [i + 1] the payload has been written,
    flushed and the file closed: the log of the passes so far holds the
    open, the write and the close of the file, no process is started
    between the close and the end of the pass, no file object is open,
    process [i + 1] has not been started, and the file on disk holds the
    payload.  The file keeps that content whatever later passes do, also
    when one of them aborts the campaign. *)
Theorem C4_persisted_before_next_pass s i path content :
  fault_free s (S i) ->
  artifact i (payload s i) = Some (path, content) ->
  for_in (range (S i)) iteration s = Ok tt (loop_state (S i) s) /\
  content = payload s i /\
  (exists before after,
      loop_events s (S i) =
      before ++ [EvOpen path; EvWrite path content; EvClose path] ++ after /\
      spawned after = []) /\
  open_files (loop_events s (S i)) = [] /\
  spawned (loop_events s (S i)) = range (S i) /\
  files (loop_state (S i) s) !! path = Some content /\
  (forall n, (i < n)%nat ->
     files (state_of (for_in (range n) iteration s)) !! path =
     Some content).
Proof.
  intros Hff Ha.
  split; [apply loop_ok; assumption|].
  split; [apply artifact_inv in Ha as [-> _]; reflexivity|].
  split.
  { destruct (save_block i (payload s i) path content) as
      (before & after & Hev & Hsp); [apply Hff; lia|assumption|].
    exists (loop_events s i ++ before), after.
    rewrite loop_events_S, Hev, <- !app_assoc. split; [reflexivity|done]. }
  split; [apply open_loop|].
  split; [apply spawned_loop; assumption|].
  split; [eapply loop_state_file; [|eassumption]; lia|].
  intros n Hn. eapply persisted; eassumption.
Qed.

(** *** Executions of a whole campaign *)

Lemma spawned_app l1 l2 : spawned (l1 ++ l2) = spawned l1 ++ spawned l2.
Proof. apply omap_app. Qed.

Lemma delivered_app l1 l2 :
  delivered (l1 ++ l2) = delivered l1 ++ delivered l2.
Proof. apply omap_app. Qed.

Lemma written_app l1 l2 : written (l1 ++ l2) = written l1 ++ written l2.
Proof. apply omap_app. Qed.

Lemma final_spawned iterations s :
  fault_free (start_state iterations s) iterations ->
  spawned (events_since s (final_state iterations s)) = range iterations.
Proof.
  intros Hff. rewrite final_events_since, !spawned_app.
  destruct (opening_no_process iterations s) as (-> & _).
  destruct (closing_no_process (crashes (final_state iterations s)))
    as (-> & _).
  rewrite spawned_loop by assumption. rewrite app_nil_r. reflexivity.
Qed.

Lemma final_delivered iterations s :
  fault_free (start_state iterations s) iterations ->
  delivered (events_since s (final_state iterations s)) =
  map (fun i => (i, nth_payload (src s) i)) (range iterations).
Proof.
  intros Hff. rewrite final_events_since, !delivered_app.
  destruct (opening_no_process iterations s) as (_ & -> & _).
  destruct (closing_no_process (crashes (final_state iterations s)))
    as (_ & -> & _).
  rewrite delivered_loop by assumption. rewrite app_nil_r. simpl.
  apply map_ext. intros i. rewrite payload_pure. reflexivity.
Qed.

Lemma range_NoDup n : NoDup (range n).
Proof. apply NoDup_seq. Qed.

Lemma range_length n : length (range n) = n.
Proof. apply length_seq. Qed.

(** C9. A campaign of [iterations] passes that meets no harness fault runs
    to its exit and starts the harness exactly [iterations] times: once for
    each index of the loop, in order, no index twice, and each process is
    handed exactly one payload. *)
Theorem C9_one_execution_per_iteration iterations s :
  dir_exists s = true \/ makedirs_fails = false ->
  fault_free (start_state iterations s) iterations ->
  exists code s',
    run_fuzz_with iterations s = Raise (SystemExit code) s' /\
    spawned (events_since s s') = range iterations /\
    length (spawned (events_since s s')) = iterations /\
    NoDup (spawned (events_since s s')) /\
    (delivered (events_since s s')).*1 = range iterations.
Proof.
  intros Hdir Hff. eexists _, _.
  split; [apply run_fuzz_ok; assumption|].
  rewrite final_spawned, final_delivered by assumption.
  split; [reflexivity|]. split; [apply range_length|].
  split; [apply range_NoDup|].
  generalize (range iterations). intros l.
  induction l as [|i l IH]; [reflexivity|]. simpl. f_equal. exact IH.
Qed.

(** *** The crash counter *)

Lemma loop_closed_since iterations s k :
  fault_free (start_state iterations s) k ->
  closed_files (events_since s (loop_state k (start_state iterations s))) =
  (artifacts (start_state iterations s) k).*1.
Proof.
  intros Hff. rewrite loop_events_since, closed_files_app.
  destruct (opening_no_process iterations s) as (_ & _ & -> & _).
  rewrite closed_loop by assumption. reflexivity.
Qed.

Lemma loop_written_since iterations s k :
  fault_free (start_state iterations s) k ->
  written (events_since s (loop_state k (start_state iterations s))) =
  artifacts (start_state iterations s) k.
Proof.
  intros Hff. rewrite loop_events_since, written_app.
  destruct (opening_no_process iterations s) as (_ & _ & _ & ->).
  rewrite written_loop by assumption. reflexivity.
Qed.

Lemma total_printed iterations s :
  EvPrint (MsgTotal (crashes (final_state iterations s)))
  ∈ events_since s (final_state iterations s).
Proof.
  rewrite final_events_since. unfold closing_events.
  rewrite !elem_of_app, !elem_of_cons. auto 10.
Qed.

(** C10, as amended.  Whenever the loop is about to start a pass (and when
    it has done its last), the crash counter is the number of files written
    and closed so far in this run, and no file name was used twice.  When
    the campaign exits, the total it prints is the number of files it has
    written and closed.  Inside a failing pass the counter is one behind
    from the close of the file to the increment that follows it. *)
Theorem C10_counter_counts_artifacts iterations s k :
  dir_exists s = true \/ makedirs_fails = false ->
  (k <= iterations)%nat ->
  fault_free (start_state iterations s) k ->
  let sk := loop_state k (start_state iterations s) in
  for_in (range k) iteration (start_state iterations s) = Ok tt sk /\
  crashes sk = length (closed_files (events_since s sk)) /\
  crashes sk = length (written (events_since s sk)) /\
  NoDup (closed_files (events_since s sk)) /\
  (k = iterations ->
   exists code s',
     run_fuzz_with iterations s = Raise (SystemExit code) s' /\
     crashes s' = length (closed_files (events_since s s')) /\
     (EvPrint (MsgTotal (length (closed_files (events_since s s'))))
      ∈ events_since s s')).
Proof.
  intros Hdir Hk Hff sk. unfold sk.
  split; [apply loop_ok; assumption|].
  rewrite loop_closed_since, loop_written_since by assumption.
  rewrite loop_state_crashes, length_fmap. cbn [crashes start_state].
  split; [reflexivity|]. split; [reflexivity|].
  split; [apply artifacts_NoDup|].
  intros ->. eexists _, _.
  split; [apply run_fuzz_ok; assumption|].
  rewrite final_closed_files by assumption. rewrite length_fmap.
  rewrite <- final_state_crashes.
  split; [reflexivity|apply total_printed].
Qed.

(** *** Harness faults *)

Lemma no_closing_app l1 l2 :
  no_closing (l1 ++ l2) = no_closing l1 && no_closing l2.
Proof. apply forallb_app. Qed.

Lemma no_closing_iteration i data : no_closing (iteration_events i data) = true.
Proof. unfold no_closing. unfold_pass. split_pass; reflexivity. Qed.

Lemma no_closing_loop s n : no_closing (loop_events s n) = true.
Proof.
  induction n as [|n IH]; [reflexivity|].
  rewrite loop_events_S, no_closing_app, IH, no_closing_iteration.
  reflexivity.
Qed.

Lemma no_closing_opening iterations s :
  no_closing (opening_events iterations s) = true.
Proof. unfold opening_events. destruct (dir_exists s); reflexivity. Qed.

Lemma verdict_none l : no_closing l = true -> verdict_of l = None.
Proof.
  unfold verdict_of. destruct l as [|ev l] using rev_ind; [reflexivity|].
  rewrite no_closing_app, last_snoc. intros [_ H]%andb_true_iff.
  simpl in H. rewrite andb_true_r in H.
  destruct ev as [|[]| | | | | | | | |]; try reflexivity; discriminate.
Qed.

Lemma fault_events_since iterations s i s' :
  trace s' =
  trace (loop_state i (start_state iterations s)) ++
  iteration_events i (payload (start_state iterations s) i) ->
  events_since s s' =
  opening_events iterations s ++
  loop_events (start_state iterations s) i ++
  iteration_events i (payload (start_state iterations s) i).
Proof.
  intros Ht. apply events_since_app. rewrite Ht, loop_state_trace. simpl.
  rewrite <- !app_assoc. reflexivity.
Qed.

(** C7. When the crash directory cannot be made, the harness cannot be
    started, or a crash file cannot be opened or flushed, the campaign ends
    at once with an [OSError] -- not with the [SystemExit] of a finished
    campaign: none of the closing lines is printed and no verdict is given.
    After a failed [makedirs] nothing at all has happened.  After a fault in
    pass [i] no process later than that of pass [i] has been started, the
    files written and closed are those of the failed passes before [i], and
    the crash counter counts exactly those: the fault is neither saved nor
    counted. *)
Theorem C7_harness_fault_aborts iterations s err :
  harness_fault iterations s err ->
  exists s',
    run_fuzz_with iterations s = Raise (OSError err) s' /\
    (forall code, OSError err <> SystemExit code) /\
    no_closing (events_since s s') = true /\
    verdict_of (events_since s s') = None /\
    ((err = ErrMakedirs /\ s' = s) \/
     exists i,
       let s0 := start_state iterations s in
       (i < iterations)%nat /\
       fault i (payload s0 i) = Some err /\
       spawned (events_since s s') =
         range i ++ (if spawn_fails i then [] else [i]) /\
       closed_files (events_since s s') = (artifacts s0 i).*1 /\
       crashes s' = length (artifacts s0 i)).
Proof.
  intros [(Hd & Hm & ->)|(Hdir & i & Hi & Hff & Hf)].
  - exists s. split; [apply makedirs_fault; assumption|].
    split; [discriminate|].
    assert (He : events_since s s = []).
    { apply events_since_app. rewrite app_nil_r. reflexivity. }
    rewrite He. repeat split; auto.
  - destruct (iteration_raise i (loop_state i (start_state iterations s)) err Hf)
      as (s' & Hr & _ & _ & Hc & Ht & _).
    exists s'. split.
    { rewrite start_state_dir_ok by assumption.
      assert (Hsplit : range iterations =
                       range i ++ i :: seq (S i) (iterations - S i)).
      { unfold range. replace iterations with (i + S (iterations - S i))%nat
          at 1 by lia.
        rewrite seq_app. reflexivity. }
      rewrite Hsplit, for_in_app, loop_ok by assumption.
      simpl. unfold mbind at 1, M_bind at 1. rewrite Hr. reflexivity. }
    split; [discriminate|].
    fold (payload (start_state iterations s) i) in Ht.
    apply fault_events_since in Ht.
    assert (Hnc : no_closing (events_since s s') = true).
    { rewrite Ht, !no_closing_app, no_closing_opening, no_closing_loop,
        no_closing_iteration. reflexivity. }
    split; [exact Hnc|]. split; [apply verdict_none; exact Hnc|].
    right. exists i. cbn zeta.
    split; [exact Hi|]. split; [exact Hf|].
    rewrite Ht, !spawned_app, !closed_files_app.
    destruct (opening_no_process iterations s) as (-> & _ & -> & _).
    rewrite spawned_loop, closed_loop, spawned_iteration, closed_iteration, Hf
      by assumption.
    rewrite app_nil_r. split; [reflexivity|]. split; [reflexivity|].
    rewrite Hc, loop_state_crashes. reflexivity.
Qed.

(** *** The pass after an expired wait *)

Lemma no_return_iteration_hang i data rc :
  target i data = Hangs -> EvReturned i rc ∉ iteration_events i data.
Proof.
  intros Ht. unfold_pass. rewrite Ht.
  split_pass; intros H;
    repeat (apply elem_of_cons in H as [H|H]; [discriminate|]);
    inversion H.
Qed.

Lemma next_pass_starts_process i s :
  spawn_fails i = false ->
  exists rest,
    events_since s (state_of (iteration i s)) = EvPopen i :: rest.
Proof.
  intros Hs. erewrite events_since_app by apply iteration_trace.
  unfold iteration_events. rewrite Hs. eexists. reflexivity.
Qed.

(** C8. The claim fails on the timeout path.  When the wait of pass [i]
    expires and the crash file can be written, the pass returns to the loop
    having sent the kill signal to process [i] and without ever having
    waited for it: no return of process [i] is in the log of the pass.  The
    loop goes straight on to pass [i + 1], and the first thing that pass
    does to the outside is to start process [i + 1]. *)
Theorem C8_timeout_pass_ends_without_wait i s :
  let data := (generate (src s)).1 in
  fault i data = None ->
  target i data = Hangs ->
  exists s',
    iteration i s = Ok tt s' /\
    (EvKill i ∈ events_since s s') /\
    (forall rc, EvReturned i rc ∉ events_since s s') /\
    for_in [i; S i] iteration s = for_in [S i] iteration s' /\
    (spawn_fails (S i) = false ->
     exists rest,
       events_since s' (state_of (iteration (S i) s')) =
       EvPopen (S i) :: rest).
Proof.
  intros data Hf Ht. exists (iteration_state i s).
  pose proof (iteration_ok i s Hf) as Hok.
  assert (Hlog : events_since s (iteration_state i s) =
                 iteration_events i data).
  { apply events_since_app.
    pose proof (iteration_trace i s) as Htr. rewrite Hok in Htr. exact Htr. }
  split; [exact Hok|]. rewrite Hlog.
  split; [apply kill_iteration_hang;
          [exact (fault_None_spawn _ _ Hf)|exact Ht]|].
  split; [intros rc; apply no_return_iteration_hang; exact Ht|].
  split; [|apply next_pass_starts_process].
  cbn [for_in]. unfold mbind at 1, M_bind at 1. rewrite Hok. reflexivity.
Qed.

(** *** The strategy mix, given what the library promises *)

Section GeneratorContract.

(** [random.randint(a, b)] returns an integer between [a] and [b];
    [random.choice(seq)] returns an element of a non-empty [seq];
    [os.urandom(n)] returns [n] bytes. *)
Hypothesis randint_range :
  forall a b g, a <= b -> a <= (random_randint a b g).1 <= b.
Hypothesis choice_elem :
  forall seq g, seq <> [] -> (random_choice seq g).1 ∈ seq.
Hypothesis urandom_length :
  forall n e, length (os_urandom n e).1 = n.

Lemma choices_length n g : length (choices n g).1 = n.
Proof.
  revert g. induction n as [|n IH]; intros g; simpl; [reflexivity|].
  destruct (random_choice chars g) as [c g1].
  specialize (IH g1). destruct (choices n g1) as [cs g2].
  simpl in *. rewrite IH. reflexivity.
Qed.

Lemma choices_chars n g : Forall (fun c => c ∈ chars) (choices n g).1.
Proof.
  revert g. induction n as [|n IH]; intros g; simpl; [constructor|].
  pose proof (choice_elem chars g) as Hc.
  destruct (random_choice chars g) as [c g1].
  specialize (IH g1). destruct (choices n g1) as [cs g2].
  simpl in *. constructor; [apply Hc; discriminate|exact IH].
Qed.

Lemma choices_draws n g :
  (forall k, (k < n)%nat ->
     (choices n g).1 !! k =
     Some (random_choice chars (after_choices k g)).1) /\
  (choices n g).2 = after_choices n g.
Proof.
  revert g. induction n as [|n IH]; intros g.
  - split; [intros k Hk; lia|reflexivity].
  - assert (Hstep : forall k,
               after_choices (S k) g =
               after_choices k (random_choice chars g).2).
    { intros k. unfold after_choices. rewrite Nat.iter_succ_r. reflexivity. }
    cbn [choices]. destruct (random_choice chars g) as [c g1] eqn:Hc.
    destruct (IH g1) as [Hlook Hstate].
    destruct (choices n g1) as [cs g2]. cbn [fst snd] in *.
    split.
    + intros [|k] Hk.
      * unfold after_choices. simpl. rewrite Hc. reflexivity.
      * rewrite Hstep. apply Hlook. lia.
    + rewrite Hstep. exact Hstate.
Qed.

Lemma strategy_thresholds r :
  (lt_0_5 r = true <-> 2 * r < two53) /\
  (lt_0_9 r = true <-> 10 * r < 9 * two53).
Proof.
  unfold lt_0_5, lt_0_9, two53.
  change (2 ^ 52) with 4503599627370496.
  change (2 ^ 53) with 9007199254740992.
  rewrite !Z.ltb_lt. lia.
Qed.

(** C6. Each pass draws one value [r] from [random.random] and chooses by
    it.  Below one half the payload is [os.urandom(n)] with [n] drawn by
    [random.randint(1, 1024)], so it has between 1 and 1024 bytes.  From one
    half up to below nine tenths the payload has [n] bytes with [n] drawn by
    [random.randint(10, 1000)]; byte number [k] is what the call number [k]
    of [random.choice(chars)] returns, a byte of the 24 of [chars], and the
    generator is left in the state after those [n] calls.  From nine tenths
    on the payload is empty. *)
Theorem C6_strategy_selection src0 :
  let r := (random_random (rng src0)).1 in
  let g1 := (random_random (rng src0)).2 in
  let data := (generate src0).1 in
  (2 * r < two53 ->
   let n := (random_randint 1 1024 g1).1 in
   1 <= n <= 1024 /\
   data = (os_urandom (Z.to_nat n) (entropy src0)).1 /\
   Z.of_nat (length data) = n) /\
  (two53 <= 2 * r -> 10 * r < 9 * two53 ->
   let n := (random_randint 10 1000 g1).1 in
   10 <= n <= 1000 /\
   data = (choices (Z.to_nat n) (random_randint 10 1000 g1).2).1 /\
   Z.of_nat (length data) = n /\
   Forall (fun c => c ∈ chars) data /\
   (forall k, (k < Z.to_nat n)%nat ->
      data !! k =
      Some (random_choice chars
              (after_choices k (random_randint 10 1000 g1).2)).1) /\
   rng (generate src0).2 =
     after_choices (Z.to_nat n) (random_randint 10 1000 g1).2) /\
  (9 * two53 <= 10 * r -> data = []).
Proof.
  intros r g1 data.
  destruct (strategy_thresholds r) as [H5 H9].
  unfold data, generate, generate_garbage, generate_json_garbage,
    with_rng, with_entropy.
  fold r g1. destruct (random_random (rng src0)) as [r' g'] eqn:Hr.
  simpl in r, g1. subst r g1. cbn [rng entropy].
  split; [|split].
  - intros Hlt. apply H5 in Hlt. rewrite Hlt.
    pose proof (randint_range 1 1024 g' ltac:(lia)) as Hn.
    destruct (random_randint 1 1024 g') as [n g2]. simpl in *.
    pose proof (urandom_length (Z.to_nat n) (entropy src0)) as Hl.
    destruct (os_urandom (Z.to_nat n) (entropy src0)) as [bs e2].
    simpl in *. rewrite Hl. split; [lia|]. split; [reflexivity|lia].
  - intros Hge Hlt.
    destruct (lt_0_5 r') eqn:E5; [pose proof (proj1 H5 eq_refl); lia|].
    apply H9 in Hlt. rewrite Hlt.
    pose proof (randint_range 10 1000 g' ltac:(lia)) as Hn.
    destruct (random_randint 10 1000 g') as [n g2]. simpl in *.
    pose proof (choices_length (Z.to_nat n) g2) as Hl.
    pose proof (choices_chars (Z.to_nat n) g2) as Hc.
    destruct (choices_draws (Z.to_nat n) g2) as [Hdraw Hstate].
    destruct (choices (Z.to_nat n) g2) as [cs g3]. simpl in *.
    rewrite Hl. split; [lia|]. split; [reflexivity|]. split; [lia|].
    split; [exact Hc|]. split; [exact Hdraw|exact Hstate].
  - intros Hge.
    destruct (lt_0_5 r') eqn:E5;
      [pose proof (proj1 H5 eq_refl); unfold two53 in *; lia|].
    destruct (lt_0_9 r') eqn:E9; [pose proof (proj1 H9 eq_refl); lia|].
    reflexivity.
Qed.

(** Whatever is drawn, a payload has at most 1024 bytes, and it is empty
    exactly when the draw [r] is nine tenths or more: the two generators
    never return an empty payload. *)
Theorem payload_size_and_emptiness src0 :
  let r := (random_random (rng src0)).1 in
  let data := (generate src0).1 in
  (length data <= 1024)%nat /\
  (data = [] <-> 9 * two53 <= 10 * r).
Proof.
  intros r data.
  destruct (strategy_thresholds r) as [H5 H9].
  assert (Hmono : lt_0_5 r = true -> lt_0_9 r = true).
  { unfold lt_0_5, lt_0_9. rewrite !Z.ltb_lt.
    change (2 ^ 52) with 4503599627370496. lia. }
  unfold data, generate, generate_garbage, generate_json_garbage,
    with_rng, with_entropy.
  fold r. destruct (random_random (rng src0)) as [r' g'] eqn:Hr.
  simpl in r. subst r. cbn [rng entropy].
  destruct (lt_0_5 r') eqn:E5; [|destruct (lt_0_9 r') eqn:E9].
  - pose proof (randint_range 1 1024 g' ltac:(lia)) as Hn.
    destruct (random_randint 1 1024 g') as [n g2]. simpl in *.
    pose proof (urandom_length (Z.to_nat n) (entropy src0)) as Hl.
    destruct (os_urandom (Z.to_nat n) (entropy src0)) as [bs e2].
    simpl in *. split; [lia|].
    pose proof (proj1 H9 (Hmono eq_refl)).
    split; [|lia]. intros ->. simpl in Hl. lia.
  - pose proof (randint_range 10 1000 g' ltac:(lia)) as Hn.
    destruct (random_randint 10 1000 g') as [n g2]. simpl in *.
    pose proof (choices_length (Z.to_nat n) g2) as Hl.
    destruct (choices (Z.to_nat n) g2) as [cs g3]. simpl in *.
    split; [lia|].
    pose proof (proj1 H9 eq_refl).
    split; [|lia]. intros ->. simpl in Hl. lia.
  - simpl. split; [lia|]. split; [|reflexivity]. intros _.
    destruct (decide (10 * r' < 9 * two53)) as [Hlt|Hge]; [|lia].
    apply H9 in Hlt. discriminate.
Qed.

End GeneratorContract.

(** *** What a campaign leaves alone, and what its exit status tells *)

Lemma put_files_other (l : list (string * bytes)) (m : gmap string bytes) path :
  path ∉ l.*1 -> foldl put_file m l !! path = m !! path.
Proof.
  revert m. induction l as [|[p c] l IH] using rev_ind; intros m Hnot.
  - reflexivity.
  - rewrite fmap_app, not_elem_of_app in Hnot. destruct Hnot as [Hl Hp].
    rewrite foldl_app. simpl. unfold put_file at 1. simpl.
    rewrite lookup_insert_ne; [apply IH; exact Hl|].
    intros <-. apply Hp. simpl. apply list_elem_of_singleton. reflexivity.
Qed.

(** A campaign that runs to its end changes no file but those it wrote and
    closed: every other path holds what it held before, files left in the
    crash directory by earlier campaigns included. *)
Theorem other_files_untouched iterations s code s' path :
  run_fuzz_with iterations s = Raise (SystemExit code) s' ->
  path ∉ closed_files (events_since s s') ->
  files s' !! path = files s !! path.
Proof.
  intros Hrun Hnot.
  apply run_fuzz_exit_inv in Hrun as (_ & Hff & -> & _).
  rewrite final_closed_files in Hnot by assumption.
  unfold final_state. cbn [files]. rewrite loop_state_files.
  apply put_files_other. exact Hnot.
Qed.

Lemma artifact_failure i data :
  artifact i data = None <-> is_failure (target i data) = false.
Proof.
  unfold artifact, is_failure. destruct (target i data) as [rc|].
  - destruct (bool_decide (rc ≠ 0)) eqn:Hrc.
    + apply bool_decide_eq_true_1 in Hrc.
      split; [discriminate|]. intros H. apply negb_false_iff in H.
      apply Z.eqb_eq in H. contradiction.
    + apply bool_decide_eq_false_1 in Hrc.
      split; [|reflexivity]. intros _. apply negb_false_iff, Z.eqb_eq.
      destruct (decide (rc = 0)); [assumption|contradiction].
  - split; discriminate.
Qed.

Lemma artifacts_failures s n : length (artifacts s n) = length (failures s n).
Proof.
  induction n as [|n IH]; [reflexivity|].
  rewrite artifacts_S, length_app, IH.
  unfold failures, range. rewrite seq_S, filter_app, length_app. f_equal.
  simpl. destruct (is_failure (target n (payload s n))) eqn:Hf.
  - rewrite filter_cons_True by assumption.
    destruct (artifact n (payload s n)) as [a|] eqn:Ha; [reflexivity|].
    apply artifact_failure in Ha. congruence.
  - rewrite filter_cons_False by (rewrite Hf; discriminate).
    apply artifact_failure in Hf. rewrite Hf. reflexivity.
Qed.

(** The total a finished campaign reports is the number of passes in which
    the wait expired or the harness returned a non-zero code: timeouts count
    as crashes. *)
Theorem total_counts_failed_passes iterations s code s' :
  run_fuzz_with iterations s = Raise (SystemExit code) s' ->
  crashes s' = length (failures (start_state iterations s) iterations) /\
  (EvPrint (MsgTotal (length (failures (start_state iterations s) iterations)))
   ∈ events_since s s').
Proof.
  intros Hrun.
  apply run_fuzz_exit_inv in Hrun as (_ & Hff & -> & _).
  rewrite <- artifacts_failures, <- final_state_crashes.
  split; [reflexivity|apply total_printed].
Qed.

Lemma failures_nil s n :
  failures s n = [] <->
  forall i, (i < n)%nat -> target i (payload s i) = Exits 0.
Proof.
  unfold failures. split.
  - intros Hnil i Hi.
    assert (Hin : i ∉ filter
              (fun i => is_failure (target i (payload s i)) = true) (range n))
      by (rewrite Hnil; apply not_elem_of_nil).
    rewrite list_elem_of_filter in Hin.
    destruct (target i (payload s i)) as [rc|] eqn:Ht.
    + destruct (decide (rc = 0)) as [->|Hne]; [reflexivity|].
      exfalso. apply Hin. split.
      * simpl. apply negb_true_iff, Z.eqb_neq. exact Hne.
      * apply elem_of_seq. lia.
    + exfalso. apply Hin. split; [reflexivity|apply elem_of_seq; lia].
  - intros Hall.
    assert (Hl : forall i, i ∈ range n -> (i < n)%nat)
      by (intros i Hi; apply elem_of_seq in Hi; lia).
    induction (range n) as [|i l IH]; [reflexivity|].
    rewrite filter_cons_False.
    + apply IH. intros j Hj. apply Hl. right. exact Hj.
    + rewrite Hall by (apply Hl; left). simpl. discriminate.
Qed.

(** The exit status of a finished campaign is 0 exactly when every one of
    its passes saw the harness return code 0 in time; and then the campaign
    has written no file at all. *)
Theorem exit_zero_iff_all_passes_clean iterations s code s' :
  run_fuzz_with iterations s = Raise (SystemExit code) s' ->
  (code = 0 <->
   forall i, (i < iterations)%nat ->
     target i (payload (start_state iterations s) i) = Exits 0) /\
  (code = 0 -> written (events_since s s') = [] /\ files s' = files s).
Proof.
  intros Hrun.
  pose proof Hrun as Hinv.
  apply run_fuzz_exit_inv in Hinv as (_ & Hff & -> & ->).
  assert (Hzero : length (artifacts (start_state iterations s) iterations)
                  = 0%nat <->
                  forall i, (i < iterations)%nat ->
                    target i (payload (start_state iterations s) i) = Exits 0).
  { rewrite artifacts_failures, length_zero_iff_nil. apply failures_nil. }
  destruct (bool_decide _) eqn:Hc.
  - apply bool_decide_eq_true_1 in Hc. rewrite final_state_crashes in Hc.
    split.
    + split; [intros _; apply Hzero; exact Hc|reflexivity].
    + intros _. apply length_zero_iff_nil in Hc.
      rewrite final_events_since, !written_app.
      destruct (opening_no_process iterations s) as (_ & _ & _ & ->).
      rewrite written_loop, Hc by assumption.
      split; [reflexivity|].
      unfold final_state. cbn [files]. rewrite loop_state_files, Hc.
      reflexivity.
  - apply bool_decide_eq_false_1 in Hc. rewrite final_state_crashes in Hc.
    split.
    + split; [discriminate|]. intros Hall. apply Hzero in Hall. contradiction.
    + discriminate.
Qed.

(** [run_fuzz] never returns to its caller: it ends in [sys.exit] or in an
    uncaught [OSError], the exit status is 0 or 1, and it is 0 only through
    [sys.exit(0)]. *)
Theorem run_fuzz_always_exits iterations s :
  exists e s',
    run_fuzz_with iterations s = Raise e s' /\
    (exit_status e = 0 \/ exit_status e = 1) /\
    (exit_status e = 0 -> e = SystemExit 0 /\ crashes s' = 0%nat).
Proof.
  destruct (run_fuzz_with iterations s) as [[] s'|[code|err] s'] eqn:Hrun.
  - exfalso. exact (run_fuzz_never_returns _ _ _ Hrun).
  - exists (SystemExit code), s'. split; [reflexivity|].
    apply run_fuzz_exit_inv in Hrun as (_ & _ & _ & ->). simpl.
    destruct (bool_decide (crashes s' = 0%nat)) eqn:Hc.
    + apply bool_decide_eq_true_1 in Hc. auto.
    + split; [auto|discriminate].
  - exists (OSError err), s'. split; [reflexivity|]. simpl.
    split; [auto|discriminate].
Qed.

(** The name of a crash file tells the pass and the kind of failure: two
    files of the same kind with the same name belong to the same pass, and
    no timeout file has the name of a crash file. *)
Theorem artifact_name_decodes i j :
  (timeout_path i = timeout_path j -> i = j) /\
  (crash_path i = crash_path j -> i = j) /\
  timeout_path i <> crash_path j.
Proof.
  split; [apply timeout_path_inj|]. split; [apply crash_path_inj|].
  apply timeout_crash_path.
Qed.

(** *** Progress lines *)

Lemma progress_iteration i data :
  fault i data = None ->
  progress_lines (iteration_events i data) =
  if bool_decide (i mod 1000 = 0)%nat && negb (is_hang (target i data))
  then [i] else [].
Proof.
  unfold progress_lines, is_hang.
  unfold_pass. split_pass; intros Hf; try discriminate; reflexivity.
Qed.

Lemma filter_true_singleton (f : nat -> bool) n :
  filter (fun k => f k = true) [n] = if f n then [n] else [].
Proof.
  destruct (f n) eqn:Hf.
  - rewrite filter_cons_True by assumption. reflexivity.
  - rewrite filter_cons_False by (rewrite Hf; discriminate). reflexivity.
Qed.

Lemma progress_loop s n :
  fault_free s n ->
  progress_lines (loop_events s n) =
  filter (fun k => progress_due s k = true) (range n).
Proof.
  induction n as [|n IH]; intros Hff; [reflexivity|].
  apply fault_free_S in Hff as [Hff Hn].
  rewrite loop_events_S. unfold progress_lines in *.
  rewrite omap_app, IH by assumption.
  fold (progress_lines (iteration_events n (payload s n))).
  rewrite progress_iteration by assumption.
  unfold range. rewrite seq_S, filter_app, filter_true_singleton.
  reflexivity.
Qed.

(** In a campaign that runs to its end the progress lines are those of the
    passes whose index is a multiple of 1000 and whose process returned in
    time, in order: a pass that timed out prints none, whatever its index,
    because [continue] skips line 61. *)
Theorem progress_lines_skip_timeouts iterations s code s' :
  run_fuzz_with iterations s = Raise (SystemExit code) s' ->
  progress_lines (events_since s s') =
  filter (fun i => progress_due (start_state iterations s) i = true)
         (range iterations) /\
  (forall i, target i (payload (start_state iterations s) i) = Hangs ->
     i ∉ progress_lines (events_since s s')).
Proof.
  intros Hrun.
  apply run_fuzz_exit_inv in Hrun as (_ & Hff & -> & _).
  assert (Heq : progress_lines (events_since s (final_state iterations s)) =
                filter (fun i => progress_due (start_state iterations s) i
                                 = true) (range iterations)).
  { rewrite final_events_since. unfold progress_lines.
    rewrite !omap_app.
    fold (progress_lines (loop_events (start_state iterations s) iterations)).
    rewrite progress_loop by assumption.
    unfold opening_events, closing_events.
    destruct (dir_exists s), (bool_decide _); simpl; rewrite ?app_nil_r;
      reflexivity. }
  split; [exact Heq|].
  intros i Ht. rewrite Heq, list_elem_of_filter. unfold progress_due.
  rewrite Ht. simpl. rewrite andb_false_r. intros [H _]. discriminate.
Qed.

(** *** The crash directory *)

Lemma makedirs_iteration i data : makedirs_calls (iteration_events i data) = [].
Proof. unfold makedirs_calls. unfold_pass. split_pass; reflexivity. Qed.

Lemma makedirs_loop s n : makedirs_calls (loop_events s n) = [].
Proof.
  induction n as [|n IH]; [reflexivity|].
  rewrite loop_events_S. unfold makedirs_calls in *.
  rewrite omap_app, IH. apply makedirs_iteration.
Qed.

Lemma run_log iterations s :
  dir_exists s = true \/ makedirs_fails = false ->
  exists rest,
    events_since s (state_of (run_fuzz_with iterations s)) =
    opening_events iterations s ++ rest /\
    makedirs_calls rest = [].
Proof.
  intros Hdir. rewrite start_state_dir_ok by assumption.
  destruct (for_in _ _ _) as [[] s1|e s1] eqn:Hloop.
  - apply loop_inv in Hloop as [-> Hff]. cbn [state_of].
    exists (loop_events (start_state iterations s) iterations ++
            closing_events
              (crashes (loop_state iterations (start_state iterations s)))).
    split.
    + apply events_since_app. cbn [trace]. rewrite loop_state_trace.
      cbn [trace start_state]. rewrite <- !app_assoc. reflexivity.
    + unfold makedirs_calls. rewrite omap_app.
      fold (makedirs_calls (loop_events (start_state iterations s)
                              iterations)).
      rewrite makedirs_loop. reflexivity.
  - apply loop_raise in Hloop as (i & err & Hi & Hff & Hf & -> & Hit).
    destruct (iteration_raise i _ err Hf) as (s2 & Hr & _ & _ & _ & Ht & _).
    rewrite Hr in Hit. inversion Hit; subst s2. cbn [state_of].
    fold (payload (start_state iterations s) i) in Ht.
    rewrite (fault_events_since _ _ _ _ Ht). eexists. split; [reflexivity|].
    unfold makedirs_calls. rewrite omap_app.
    fold (makedirs_calls (loop_events (start_state iterations s) i)).
    fold (makedirs_calls
            (iteration_events i (payload (start_state iterations s) i))).
    rewrite makedirs_loop, makedirs_iteration. reflexivity.
Qed.

(** Whatever the outcome of the run, [run_fuzz] calls [os.makedirs] with
    success at most once, for the path [crashes], and only when
    [os.path.exists] says that the path is missing; it is then the first
    thing done, before the first line is printed.  When the path exists --
    as a directory or as anything else -- nothing is made. *)
Theorem makedirs_only_when_missing iterations s :
  let log := events_since s (state_of (run_fuzz_with iterations s)) in
  makedirs_calls log =
    (if dir_exists s || makedirs_fails then [] else [CRASHES_DIR]) /\
  (dir_exists s = false -> makedirs_fails = false ->
   exists rest,
     log = EvMakedirs CRASHES_DIR :: EvPrint (MsgStart iterations) :: rest) /\
  (dir_exists s = true -> EvMakedirs CRASHES_DIR ∉ log).
Proof.
  intros log. unfold log.
  destruct (dir_exists s) eqn:Hd; [|destruct makedirs_fails eqn:Hm].
  - destruct (run_log iterations s) as (rest & -> & Hrest); [auto|].
    unfold opening_events. rewrite Hd. cbn [app orb].
    split; [exact Hrest|]. split; [discriminate|]. intros _ Hin.
    apply elem_of_cons in Hin as [Hin|Hin]; [discriminate|].
    assert (Hm : CRASHES_DIR ∈ makedirs_calls rest).
    { unfold makedirs_calls. apply list_elem_of_omap.
      exists (EvMakedirs CRASHES_DIR). split; [exact Hin|reflexivity]. }
    rewrite Hrest in Hm. inversion Hm.
  - rewrite makedirs_fault by assumption. cbn [state_of].
    unfold events_since. rewrite drop_all.
    split; [reflexivity|]. split; discriminate.
  - destruct (run_log iterations s) as (rest & -> & Hrest); [auto|].
    unfold opening_events. rewrite Hd. cbn [app orb].
    split.
    { change (makedirs_calls (EvMakedirs CRASHES_DIR ::
                              EvPrint (MsgStart iterations) :: rest))
        with (CRASHES_DIR :: makedirs_calls rest).
      rewrite Hrest. reflexivity. }
    split; [|discriminate]. intros _ _. eexists. reflexivity.
Qed.

(** *** The seeded generator does not read the entropy *)

Lemma generate_seed_only src1 src2 :
  rng src1 = rng src2 ->
  rng (generate src1).2 = rng (generate src2).2 /\
  (lt_0_5 (random_random (rng src1)).1 = false ->
   (generate src1).1 = (generate src2).1 /\
   entropy (generate src1).2 = entropy src1).
Proof.
  destruct src1 as [g e1], src2 as [g2 e2]. simpl. intros <-.
  unfold generate, generate_garbage, generate_json_garbage,
    with_rng, with_entropy. cbn [rng entropy].
  destruct (random_random g) as [r g1]. simpl.
  destruct (lt_0_5 r).
  - destruct (random_randint 1 1024 g1) as [n g3]. cbn [rng entropy].
    destruct (os_urandom (Z.to_nat n) e1), (os_urandom (Z.to_nat n) e2).
    simpl. split; [reflexivity|discriminate].
  - destruct (lt_0_9 r).
    + destruct (random_randint 10 1000 g1) as [n g3].
      destruct (choices (Z.to_nat n) g3). simpl. auto.
    + simpl. auto.
Qed.

(** The draws of the seeded generator do not depend on what [os.urandom]
    returns: two campaigns that start from the same generator state choose
    the same strategy in every pass, and agree on every payload that is not
    raw random bytes, whatever the entropy of either. *)
Theorem strategies_follow_the_seed src1 src2 n :
  rng src1 = rng src2 ->
  rng (sources_after n src1) = rng (sources_after n src2) /\
  (lt_0_5 (random_random (rng (sources_after n src1))).1 = false ->
   nth_payload src1 n = nth_payload src2 n).
Proof.
  intros Hrng.
  assert (Hn : forall k,
             rng (sources_after k src1) = rng (sources_after k src2)).
  { induction k as [|k IH]; [exact Hrng|]. simpl.
    apply generate_seed_only. exact IH. }
  split; [apply Hn|].
  intros Hr. unfold nth_payload.
  apply (generate_seed_only _ _ (Hn n)). exact Hr.
Qed.

End Campaign.

Arguments Ok {G E A} a s.
Arguments Raise {G E A} e s.

(** ** Payloads and the two sources of randomness *)

(** C5, as amended.  Two campaigns that start with the same state of the
    seeded generator and the same operating-system entropy, make the same
    number of passes and run to their end hand the same payloads to the
    harness, pass by pass -- whatever the harness and the disk do in either
    run. *)
Theorem C5_payloads_fixed_by_seed_and_entropy
    {G E : Type} (random_random : G -> Z * G)
    (random_randint : Z -> Z -> G -> Z * G)
    (random_choice : bytes -> G -> byte * G)
    (os_urandom : nat -> E -> bytes * E)
    (spawn_fails1 spawn_fails2 : nat -> bool)
    (target1 target2 : nat -> bytes -> behaviour)
    (disk1 disk2 : string -> disk_behaviour)
    (makedirs_fails1 makedirs_fails2 : bool)
    (iterations : nat) (s1 s2 s1' s2' : state (G := G) (E := E))
    (code1 code2 : Z) :
  src s1 = src s2 ->
  run_fuzz_with random_random random_randint random_choice os_urandom
    spawn_fails1 target1 disk1 makedirs_fails1 iterations s1 =
  Raise (SystemExit code1) s1' ->
  run_fuzz_with random_random random_randint random_choice os_urandom
    spawn_fails2 target2 disk2 makedirs_fails2 iterations s2 =
  Raise (SystemExit code2) s2' ->
  delivered (events_since s1 s1') = delivered (events_since s2 s2') /\
  delivered (events_since s1 s1') =
  map (fun i => (i, nth_payload random_random random_randint random_choice
                      os_urandom (src s1) i)) (range iterations).
Proof.
  intros Hsrc Hrun1 Hrun2.
  apply run_fuzz_exit_inv in Hrun1 as (_ & Hff1 & -> & _).
  apply run_fuzz_exit_inv in Hrun2 as (_ & Hff2 & -> & _).
  rewrite !final_delivered by assumption. rewrite Hsrc. auto.
Qed.

(** ** A small world to run the campaign in *)

Module Demo.

(** The harness can always be started; the first process hangs, the second
    returns 1, the others return 0. *)
Definition spawn_fails (i : nat) : bool := false.

Definition target (i : nat) (data : bytes) : behaviour :=
  match i with
  | O => Hangs
  | S O => Exits 1
  | _ => Exits 0
  end.

Definition disk (path : string) : disk_behaviour := DiskOk.

(** A harness that cannot be started in pass 1. *)
Definition spawn_fails_at_1 (i : nat) : bool := bool_decide (i = 1%nat).

(** No crash directory yet, no file, an empty log; the generator reads its
    draws from [draws], the entropy is [pool]. *)
Definition boot (draws : list Z) (pool : bytes) : state :=
  mkState (mkSources draws pool) false ∅ 0 [].

Abbreviation run_fuzz_with :=
  (run_fuzz_with Tape.random Tape.randint Tape.choice Tape.urandom
    spawn_fails target disk false).

Abbreviation iteration :=
  (iteration Tape.random Tape.randint Tape.choice Tape.urandom
    spawn_fails target disk).

Abbreviation fault_free :=
  (fault_free Tape.random Tape.randint Tape.choice Tape.urandom
    spawn_fails target disk).

Abbreviation payload :=
  (payload Tape.random Tape.randint Tape.choice Tape.urandom
    spawn_fails target disk).

End Demo.

(** The test doubles keep what the library promises. *)

Lemma Tape_randint_range a b g : a <= b -> a <= (Tape.randint a b g).1 <= b.
Proof.
  intros Hab. unfold Tape.randint. simpl.
  pose proof (Z.mod_pos_bound (hd 0 g) (b - a + 1)). lia.
Qed.

Lemma Tape_choice_elem (seq : bytes) g :
  seq <> [] -> (Tape.choice seq g).1 ∈ seq.
Proof.
  intros Hne. unfold Tape.choice. simpl.
  apply list_elem_of_In, nth_In.
  assert (0 < Z.of_nat (length seq)) by (destruct seq; [done|simpl; lia]).
  pose proof (Z.mod_pos_bound (hd 0 g) (Z.of_nat (length seq))). lia.
Qed.

Lemma Tape_urandom_length n e : length (Tape.urandom n e).1 = n.
Proof.
  unfold Tape.urandom. simpl.
  rewrite length_take, length_app, length_replicate. lia.
Qed.

(** ** The theorems at work in the small world *)

Lemma C1_outcome_partition_witness :
  Demo.spawn_fails 0 = false /\
  exists o,
    reactions 0 (events_since (Demo.boot [] [])
                   (state_of (Demo.iteration 0%nat (Demo.boot [] [])))) = [o].
Proof.
  split; [reflexivity|].
  destruct (C1_outcome_partition Tape.random Tape.randint Tape.choice
              Tape.urandom Demo.spawn_fails Demo.target Demo.disk
              0%nat (Demo.boot [] []) eq_refl) as (o & Ho & _).
  exists o. exact Ho.
Defined.

Lemma C2_verdict_and_exit_status_witness :
  let s' := state_of (Demo.run_fuzz_with 2%nat (Demo.boot [] [])) in
  Demo.run_fuzz_with 2%nat (Demo.boot [] []) = Raise (SystemExit 1) s' /\
  (verdict_of (trace s') = Some FailureDetected <-> crashes s' <> 0%nat) /\
  (crashes s' <> 0%nat -> exit_status (SystemExit 1) = 1).
Proof.
  intros s'.
  assert (Hrun : Demo.run_fuzz_with 2%nat (Demo.boot [] []) =
                 Raise (SystemExit 1) s') by (vm_compute; reflexivity).
  split; [exact Hrun|].
  pose proof (C2_verdict_and_exit_status Tape.random Tape.randint Tape.choice
              Tape.urandom Demo.spawn_fails Demo.target Demo.disk false 2%nat (Demo.boot [] []) 1 s' Hrun) as H.
  destruct H
    as (_ & Hv & _ & He).
  split; [exact Hv|exact He].
Defined.

Lemma C3_one_artifact_per_failure_witness :
  let s' := state_of (Demo.run_fuzz_with 2%nat (Demo.boot [] [])) in
  Demo.run_fuzz_with 2%nat (Demo.boot [] []) = Raise (SystemExit 1) s' /\
  (0 < 2)%nat /\
  files s' !! timeout_path 0 =
  Some (Demo.payload (start_state 2 (Demo.boot [] [])) 0%nat).
Proof.
  intros s'.
  assert (Hrun : Demo.run_fuzz_with 2%nat (Demo.boot [] []) =
                 Raise (SystemExit 1) s') by (vm_compute; reflexivity).
  split; [exact Hrun|]. split; [lia|].
  pose proof (C3_one_artifact_per_failure Tape.random Tape.randint
              Tape.choice Tape.urandom Demo.spawn_fails Demo.target Demo.disk
              false 2%nat (Demo.boot [] []) 1 s' 0%nat Hrun ltac:(lia)) as H.
  destruct H as (_ & _ & Ht & _).
  destruct (Ht eq_refl) as (_ & _ & Hfile). exact Hfile.
Defined.

Lemma C4_persisted_before_next_pass_witness :
  let s := Demo.boot [] [] in
  Demo.fault_free s 1 /\
  artifact Demo.target 0 (Demo.payload s 0%nat) =
    Some (timeout_path 0, Demo.payload s 0%nat) /\
  forall n, (0 < n)%nat ->
    files (state_of (for_in (range n) Demo.iteration s)) !! timeout_path 0 =
    Some (Demo.payload s 0%nat).
Proof.
  intros s.
  assert (Hff : Demo.fault_free s 1).
  { intros i Hi. destruct i as [|i]; [reflexivity|lia]. }
  split; [exact Hff|]. split; [reflexivity|].
  pose proof (C4_persisted_before_next_pass Tape.random Tape.randint
              Tape.choice Tape.urandom Demo.spawn_fails Demo.target Demo.disk
              s 0%nat (timeout_path 0) (Demo.payload s 0%nat) Hff eq_refl) as H.
  destruct H as (_ & _ & _ & _ & _ & _ & Hkeep).
  exact Hkeep.
Defined.

Lemma C5_counterexample :
  let run pool :=
    state_of (run_fuzz_with Tape.random Tape.randint Tape.choice Tape.urandom
                (fun _ => false) (fun _ _ => Exits 0) (fun _ => DiskOk) false
                1%nat (Demo.boot [0] pool)) in
  rng (src (Demo.boot [0] [x01])) = rng (src (Demo.boot [0] [x02])) /\
  delivered (trace (run [x01])) = [(0%nat, [x01])] /\
  delivered (trace (run [x02])) = [(0%nat, [x02])] /\
  delivered (trace (run [x01])) <> delivered (trace (run [x02])).
Proof.
  intros run. split; [reflexivity|].
  split; [vm_compute; reflexivity|]. split; [vm_compute; reflexivity|].
  vm_compute. discriminate.
Qed.

Lemma C5_payloads_fixed_by_seed_and_entropy_witness :
  let s := Demo.boot [] [x07] in
  let s1' := state_of (Demo.run_fuzz_with 2%nat s) in
  let quiet := run_fuzz_with Tape.random Tape.randint Tape.choice Tape.urandom
                 (fun _ => false) (fun _ _ => Exits 0) (fun _ => DiskOk) false
                 2%nat in
  let s2' := state_of (quiet s) in
  src s = src s /\
  Demo.run_fuzz_with 2%nat s = Raise (SystemExit 1) s1' /\
  quiet s = Raise (SystemExit 0) s2' /\
  delivered (events_since s s1') = delivered (events_since s s2').
Proof.
  intros s s1' quiet s2'.
  assert (H1 : Demo.run_fuzz_with 2%nat s = Raise (SystemExit 1) s1')
    by (vm_compute; reflexivity).
  assert (H2 : quiet s = Raise (SystemExit 0) s2')
    by (vm_compute; reflexivity).
  split; [reflexivity|]. split; [exact H1|]. split; [exact H2|].
  exact (proj1 (C5_payloads_fixed_by_seed_and_entropy
                  Tape.random Tape.randint Tape.choice Tape.urandom
                  Demo.spawn_fails (fun _ => false)
                  Demo.target (fun _ _ => Exits 0)
                  Demo.disk (fun _ => DiskOk) false false
                  2%nat s s s1' s2' 1 0 eq_refl H1 H2)).
Defined.

Lemma C6_strategy_selection_witness :
  let src0 := mkSources [5000000000000000; 0; 0; 1; 2; 3; 4; 5; 6; 7; 8; 9]
                        [] in
  (forall a b g, a <= b -> a <= (Tape.randint a b g).1 <= b) /\
  (forall (seq : bytes) g, seq <> [] -> (Tape.choice seq g).1 ∈ seq) /\
  (forall n e, length (Tape.urandom n e).1 = n) /\
  two53 <= 2 * (Tape.random (rng src0)).1 /\
  10 * (Tape.random (rng src0)).1 < 9 * two53 /\
  (generate Tape.random Tape.randint Tape.choice Tape.urandom src0).1 !! 2%nat
    = Some x22 /\
  (generate Tape.random Tape.randint Tape.choice Tape.urandom src0).1 !! 9%nat
    = Some x31.
Proof.
  intros src0.
  split; [exact Tape_randint_range|]. split; [exact Tape_choice_elem|].
  split; [exact Tape_urandom_length|].
  assert (Hge : two53 <= 2 * (Tape.random (rng src0)).1)
    by (vm_compute; discriminate).
  assert (Hlt : 10 * (Tape.random (rng src0)).1 < 9 * two53)
    by (vm_compute; reflexivity).
  split; [exact Hge|]. split; [exact Hlt|].
  destruct (C6_strategy_selection Tape.random Tape.randint Tape.choice
              Tape.urandom Tape_randint_range Tape_choice_elem
              Tape_urandom_length src0) as (_ & Hnoise & _).
  destruct (Hnoise Hge Hlt) as (_ & _ & _ & _ & Hdraw & _).
  split; [rewrite (Hdraw 2%nat)|rewrite (Hdraw 9%nat)];
    solve [vm_compute; reflexivity | vm_compute; lia].
Defined.

Lemma C7_harness_fault_aborts_witness :
  let s := Demo.boot [] [] in
  harness_fault Tape.random Tape.randint Tape.choice Tape.urandom
    Demo.spawn_fails_at_1 Demo.target Demo.disk false 3 s ErrPopen /\
  exists s',
    run_fuzz_with Tape.random Tape.randint Tape.choice Tape.urandom
      Demo.spawn_fails_at_1 Demo.target Demo.disk false 3 s =
    Raise (OSError ErrPopen) s' /\
    verdict_of (events_since s s') = None.
Proof.
  intros s.
  assert (Hf : harness_fault Tape.random Tape.randint Tape.choice Tape.urandom
                 Demo.spawn_fails_at_1 Demo.target Demo.disk false 3 s
                 ErrPopen).
  { right. split; [right; reflexivity|]. exists 1%nat.
    split; [lia|]. split; [|reflexivity].
    intros j Hj. destruct j as [|j]; [reflexivity|lia]. }
  split; [exact Hf|].
  destruct (C7_harness_fault_aborts Tape.random Tape.randint Tape.choice
              Tape.urandom Demo.spawn_fails_at_1 Demo.target Demo.disk false
              3%nat s ErrPopen Hf) as (s' & Hrun & _ & _ & Hv & _).
  exists s'. split; assumption.
Defined.

Lemma C8_timeout_pass_ends_without_wait_witness :
  let s := Demo.boot [] [] in
  let data := (generate Tape.random Tape.randint Tape.choice Tape.urandom
                 (src s)).1 in
  fault Demo.spawn_fails Demo.target Demo.disk 0 data = None /\
  Demo.target 0 data = Hangs /\
  exists s',
    Demo.iteration 0%nat s = Ok tt s' /\
    (EvKill 0 ∈ events_since s s') /\
    (forall rc, EvReturned 0 rc ∉ events_since s s').
Proof.
  intros s data. split; [reflexivity|]. split; [reflexivity|].
  destruct (C8_timeout_pass_ends_without_wait Tape.random Tape.randint
              Tape.choice Tape.urandom Demo.spawn_fails Demo.target Demo.disk
              0%nat s eq_refl eq_refl) as (s' & Hok & Hkill & Hret & _).
  exists s'. repeat split; assumption.
Defined.

Lemma C9_one_execution_per_iteration_witness :
  let s := Demo.boot [] [] in
  (dir_exists s = true \/ false = false) /\
  Demo.fault_free (start_state 3 s) 3 /\
  exists code s',
    Demo.run_fuzz_with 3%nat s = Raise (SystemExit code) s' /\
    spawned (events_since s s') = [0; 1; 2]%nat.
Proof.
  intros s.
  assert (Hff : Demo.fault_free (start_state 3 s) 3).
  { intros i Hi.
    destruct i as [|[|[|i]]]; [reflexivity|reflexivity|reflexivity|lia]. }
  split; [right; reflexivity|]. split; [exact Hff|].
  destruct (C9_one_execution_per_iteration Tape.random Tape.randint
              Tape.choice Tape.urandom Demo.spawn_fails Demo.target Demo.disk
              false 3%nat s (or_intror eq_refl) Hff)
    as (code & s' & Hrun & Hs & _).
  exists code, s'. split; [exact Hrun|exact Hs].
Defined.

Lemma C10_counter_counts_artifacts_witness :
  let s := Demo.boot [] [] in
  let sk := loop_state Tape.random Tape.randint Tape.choice Tape.urandom
              Demo.spawn_fails Demo.target Demo.disk 1 (start_state 2 s) in
  (dir_exists s = true \/ false = false) /\ (1 <= 2)%nat /\
  Demo.fault_free (start_state 2 s) 1 /\
  crashes sk = length (closed_files (events_since s sk)).
Proof.
  intros s sk.
  assert (Hff : Demo.fault_free (start_state 2 s) 1).
  { intros i Hi. destruct i as [|i]; [reflexivity|lia]. }
  split; [right; reflexivity|]. split; [lia|]. split; [exact Hff|].
  destruct (C10_counter_counts_artifacts Tape.random Tape.randint Tape.choice
              Tape.urandom Demo.spawn_fails Demo.target Demo.disk false
              2%nat s 1%nat (or_intror eq_refl) ltac:(lia) Hff)
    as (_ & Hc & _).
  exact Hc.
Defined.

(** The claim as stated, for every point of the loop, fails inside a failing
    pass: after the file of pass 0 is closed and before the counter is
    incremented, one file is written and the counter is 0. *)
Lemma C10_counterexample :
  let s0 := start_state 1 (Demo.boot [] []) in
  let mid := state_of (pass_until_saved Tape.random Tape.randint Tape.choice
                         Tape.urandom Demo.spawn_fails Demo.target Demo.disk
                         0 s0) in
  Demo.iteration 0%nat s0 =
    pass_after_saved 0 TimeoutExpired mid /\
  closed_files (events_since (Demo.boot [] []) mid) = [timeout_path 0] /\
  written (events_since (Demo.boot [] []) mid) = [(timeout_path 0, [x00])] /\
  crashes mid = 0%nat /\
  crashes mid <> length (closed_files (events_since (Demo.boot [] []) mid)).
Proof.
  intros s0 mid.
  split; [vm_compute; reflexivity|].
  split; [vm_compute; reflexivity|].
  split; [vm_compute; reflexivity|].
  split; [vm_compute; reflexivity|].
  vm_compute. discriminate.
Qed.

(** ** Further properties at work in the small world *)

Lemma other_files_untouched_witness :
  let s' := state_of (Demo.run_fuzz_with 2%nat (Demo.boot [] [])) in
  Demo.run_fuzz_with 2%nat (Demo.boot [] []) = Raise (SystemExit 1) s' /\
  ("notes.txt" ∉ closed_files (events_since (Demo.boot [] []) s')) /\
  files s' !! "notes.txt" = files (Demo.boot [] []) !! "notes.txt".
Proof.
  intros s'.
  assert (Hrun : Demo.run_fuzz_with 2%nat (Demo.boot [] []) =
                 Raise (SystemExit 1) s') by (vm_compute; reflexivity).
  assert (Hnot : "notes.txt" ∉
                 closed_files (events_since (Demo.boot [] []) s')).
  { intros Hin. apply list_elem_of_In in Hin. vm_compute in Hin.
    destruct Hin as [H|[H|[]]]; discriminate H. }
  split; [exact Hrun|]. split; [exact Hnot|].
  exact (other_files_untouched Tape.random Tape.randint Tape.choice
           Tape.urandom Demo.spawn_fails Demo.target Demo.disk false
           2%nat (Demo.boot [] []) 1 s' "notes.txt" Hrun Hnot).
Defined.

Lemma total_counts_failed_passes_witness :
  let s' := state_of (Demo.run_fuzz_with 3%nat (Demo.boot [] [])) in
  Demo.run_fuzz_with 3%nat (Demo.boot [] []) = Raise (SystemExit 1) s' /\
  crashes s' =
  length (failures Tape.random Tape.randint Tape.choice Tape.urandom
            Demo.spawn_fails Demo.target Demo.disk
            (start_state 3 (Demo.boot [] [])) 3).
Proof.
  intros s'.
  assert (Hrun : Demo.run_fuzz_with 3%nat (Demo.boot [] []) =
                 Raise (SystemExit 1) s') by (vm_compute; reflexivity).
  split; [exact Hrun|].
  exact (proj1 (total_counts_failed_passes Tape.random Tape.randint
                  Tape.choice Tape.urandom Demo.spawn_fails Demo.target
                  Demo.disk false 3%nat (Demo.boot [] []) 1 s' Hrun)).
Defined.

Lemma exit_zero_iff_all_passes_clean_witness :
  let quiet := run_fuzz_with Tape.random Tape.randint Tape.choice Tape.urandom
                 (fun _ => false) (fun _ _ => Exits 0) (fun _ => DiskOk) false
                 2%nat in
  let s := Demo.boot [] [] in
  let s' := state_of (quiet s) in
  quiet s = Raise (SystemExit 0) s' /\
  written (events_since s s') = [] /\ files s' = files s.
Proof.
  intros quiet s s'.
  assert (Hrun : quiet s = Raise (SystemExit 0) s')
    by (vm_compute; reflexivity).
  split; [exact Hrun|].
  exact (proj2 (exit_zero_iff_all_passes_clean Tape.random Tape.randint
                  Tape.choice Tape.urandom (fun _ => false)
                  (fun _ _ => Exits 0) (fun _ => DiskOk) false
                  2%nat s 0 s' Hrun) eq_refl).
Defined.


Lemma progress_lines_skip_timeouts_witness :
  let s := Demo.boot [] [] in
  let s' := state_of (Demo.run_fuzz_with 2%nat s) in
  Demo.run_fuzz_with 2%nat s = Raise (SystemExit 1) s' /\
  Demo.target 0 (Demo.payload (start_state 2 s) 0%nat) = Hangs /\
  (0%nat ∉ progress_lines (events_since s s')).
Proof.
  intros s s'.
  assert (Hrun : Demo.run_fuzz_with 2%nat s = Raise (SystemExit 1) s')
    by (vm_compute; reflexivity).
  split; [exact Hrun|]. split; [reflexivity|].
  exact (proj2 (progress_lines_skip_timeouts Tape.random Tape.randint
                  Tape.choice Tape.urandom Demo.spawn_fails Demo.target
                  Demo.disk false 2%nat s 1 s' Hrun) 0%nat eq_refl).
Defined.

Lemma payload_size_and_emptiness_witness :
  let src0 := mkSources [9007199254740991] [x41] in
  (forall a b g, a <= b -> a <= (Tape.randint a b g).1 <= b) /\
  (forall n e, length (Tape.urandom n e).1 = n) /\
  ((generate Tape.random Tape.randint Tape.choice Tape.urandom src0).1 = [] <->
   9 * two53 <= 10 * (Tape.random (rng src0)).1).
Proof.
  intros src0.
  split; [exact Tape_randint_range|]. split; [exact Tape_urandom_length|].
  exact (proj2 (payload_size_and_emptiness Tape.random Tape.randint
                  Tape.choice Tape.urandom Tape_randint_range
                  Tape_urandom_length src0)).
Defined.

Lemma strategies_follow_the_seed_witness :
  let src1 := mkSources [5000000000000000; 20; 3] [x01] in
  let src2 := mkSources [5000000000000000; 20; 3] [x02; x03] in
  rng src1 = rng src2 /\
  nth_payload Tape.random Tape.randint Tape.choice Tape.urandom src1 0 =
  nth_payload Tape.random Tape.randint Tape.choice Tape.urandom src2 0.
Proof.
  intros src1 src2. split; [reflexivity|].
  exact (proj2 (strategies_follow_the_seed Tape.random Tape.randint
                  Tape.choice Tape.urandom src1 src2 0%nat eq_refl) eq_refl).
Defined.

Lemma makedirs_only_when_missing_witness :
  let s := Demo.boot [] [] in
  dir_exists s = false /\
  exists rest,
    events_since s (state_of (Demo.run_fuzz_with 1%nat s)) =
    EvMakedirs CRASHES_DIR :: EvPrint (MsgStart 1) :: rest.
Proof.
  intros s. split; [reflexivity|].
  exact (proj1 (proj2 (makedirs_only_when_missing Tape.random Tape.randint
                         Tape.choice Tape.urandom Demo.spawn_fails
                         Demo.target Demo.disk false 1%nat s))
               eq_refl eq_refl).
Defined.

(** * REPL smoke test ([test_repl.py])

    The script starts the server, talks JSON-RPC to it over its standard
    input and output, one request per line, and checks that a variable set
    in a Python REPL is still there in a later call.  The JSON codec, the
    conversion [int], [str.strip] and the server are kept abstract. *)

Module Repl.

Definition BINARY : string := "./zig-out/bin/zemacs".

(** The Python values that JSON texts denote.  A float is kept as the bit
    pattern of its double; a dict as its items in insertion order. *)
#[local] Unset Elimination Schemes.
Inductive value :=
| VNone
| VBool (b : bool)
| VInt (n : Z)
| VFloat (bits : Z)
| VStr (s : string)
| VList (items : list value)
| VDict (items : list (string * value)).
#[local] Set Elimination Schemes.

(** Truth value of an object, as [or] tests it: [None], [False], zero, the
    empty string, the empty list and the empty dict are false. *)
Definition truthy (v : value) : bool :=
  match v with
  | VNone => false
  | VBool b => b
  | VInt n => negb (n =? 0)
  | VFloat bits => negb (bits mod 2 ^ 63 =? 0)
  | VStr s => negb (String.eqb s "")
  | VList items => negb (bool_decide (length items = 0%nat))
  | VDict items => negb (bool_decide (length items = 0%nat))
  end.

(** [a or b] *)
Definition py_or (a b : value) : value := if truthy a then a else b.

Inductive error :=
| TypeError
| KeyError
| ValueError
| AttributeError
| OverflowError
| BrokenPipeError
| OSError.

(** [SystemExit] is not an [Exception]: [except Exception] lets it pass. *)
Inductive exn :=
| SystemExit (code : Z)
| Exception (e : error).

Fixpoint dict_get (items : list (string * value)) (key : string)
  : option value :=
  match items with
  | [] => None
  | (k, v) :: rest => if String.eqb k key then Some v else dict_get rest key
  end.

(** [v[key]] with a string key: only a dict can be indexed by a string. *)
Definition getitem (v : value) (key : string) : error + value :=
  match v with
  | VDict items =>
      match dict_get items key with
      | Some x => inr x
      | None => inl KeyError
      end
  | _ => inl TypeError
  end.

(** [isinstance(v, int)]: [bool] is a subclass of [int]. *)
Definition isinstance_int (v : value) : bool :=
  match v with
  | VInt _ | VBool _ => true
  | _ => false
  end.

(** [needle in hay] for two strings. *)
Fixpoint startswith (hay needle : string) : bool :=
  match needle, hay with
  | EmptyString, _ => true
  | String a needle', String b hay' =>
      if Ascii.eqb a b then startswith hay' needle' else false
  | String _ _, EmptyString => false
  end.

Fixpoint contains (needle hay : string) : bool :=
  if startswith hay needle then true
  else match hay with
       | EmptyString => false
       | String _ hay' => contains needle hay'
       end.

(** [contains] is the substring test. *)
Lemma startswith_spec needle hay :
  startswith hay needle = true <-> exists post, hay = needle +:+ post.
Proof.
  revert hay. induction needle as [|a needle IH]; intros hay.
  - split; [intros _; exists hay; reflexivity|].
    intros _. destruct hay; reflexivity.
  - destruct hay as [|b hay]; simpl.
    + split; [discriminate|]. intros [post H]. discriminate H.
    + destruct (Ascii.eqb a b) eqn:Hab.
      * apply Ascii.eqb_eq in Hab. subst b. rewrite IH.
        split; intros [post H]; exists post.
        -- rewrite H. reflexivity.
        -- injection H. auto.
      * split; [discriminate|]. intros [post H]. injection H. intros _ ->.
        rewrite Ascii.eqb_refl in Hab. discriminate.
Qed.

Lemma contains_spec needle hay :
  contains needle hay = true <->
  exists pre post, hay = pre +:+ needle +:+ post.
Proof.
  induction hay as [|c hay IH].
  - change (contains needle "")
      with (if startswith "" needle then true else false).
    destruct (startswith "" needle) eqn:Hs.
    + apply startswith_spec in Hs as [post H].
      split; [|reflexivity]. intros _. exists "", post. exact H.
    + split; [discriminate|]. intros (pre & post & H).
      destruct pre; [|discriminate H]. simpl in H.
      assert (startswith "" needle = true)
        by (apply startswith_spec; eauto).
      congruence.
  - change (contains needle (String c hay))
      with (if startswith (String c hay) needle then true
            else contains needle hay).
    destruct (startswith (String c hay) needle) eqn:Hs.
    + apply startswith_spec in Hs as [post H].
      split; [|reflexivity]. intros _. exists "", post. exact H.
    + rewrite IH. split.
      * intros (pre & post & ->). exists (String c pre), post. reflexivity.
      * intros (pre & post & H). destruct pre as [|c' pre].
        -- simpl in H.
           assert (startswith (String c hay) needle = true)
             by (apply startswith_spec; eauto).
           congruence.
        -- injection H. intros -> _. eauto.
Qed.

Inductive message :=
| MsgStarting
| MsgStep1
| MsgDebug (result : value)
| MsgReplId (repl_id : value)
| MsgStep2
| MsgRead1 (result : value)
| MsgStep3
| MsgRead2 (stripped : string)
| MsgSuccess
| MsgFailure
| MsgStep4
| MsgPassed
| MsgError (e : error).

Inductive event :=
| EvPrint (m : message)
| EvPopen
| EvSend (request : value)
| EvRecv (line : bytes)
| EvSleep
| EvKill
| EvTerminate.

(** What [readline] does: it returns a line (empty at end of file), or it
    never returns because the server neither answers nor closes. *)
Inductive reply :=
| Reads (line : bytes)
| Blocks.

Definition sent (log : list event) : list value :=
  omap (fun ev => match ev with EvSend r => Some r | _ => None end) log.

Definition received (log : list event) : list bytes :=
  omap (fun ev => match ev with EvRecv l => Some l | _ => None end) log.

(** The signals sent to the server, in order. *)
Definition signals (log : list event) : list event :=
  omap (fun ev => match ev with
                  | EvKill | EvTerminate => Some ev
                  | _ => None
                  end) log.

Definition printed (log : list event) : list message :=
  omap (fun ev => match ev with EvPrint m => Some m | _ => None end) log.


(** The request object of [rpc], and the six calls of [run_test]. *)
Definition request (method : string) (params : value) (req_id : Z) : value :=
  VDict [("jsonrpc", VStr "2.0"); ("id", VInt req_id);
         ("method", VStr method); ("params", py_or params (VDict []))].

Definition tool_call (name : string) (arguments : list (string * value))
  : value :=
  VDict [("name", VStr name); ("arguments", VDict arguments)].

Definition request_id (r : value) : option value :=
  match getitem r "id" with inr v => Some v | inl _ => None end.


Section Test.

(** [json.dumps(v).encode()] for a value that [json.dumps] accepts (see
    [dumpable]; the requests of [run_test] are such values, because an
    [int] that [json.loads] or [int] returns is within the digit limit), and
    [json.loads(line)]; [None] stands for the [ValueError] that
    [json.loads] raises on a text that is no JSON. *)
Variable json_dumps : value -> bytes.
Variable json_loads : bytes -> option value.

(** [int(v)] for a [v] that is no [int], and [s.strip()]. *)
Variable py_int : value -> error + Z.
Variable str_strip : string -> string.

(** The server: whether it can be started, whether a write to its input
    fails given the lines written before, and what [readline] does given the
    lines written and the number of lines read before. *)
Variable spawn_fails : bool.
Variable pipe_broken : list bytes -> bool.
Variable server : list bytes -> nat -> reply.

(** A request on the wire: the JSON text and a newline. *)
Definition wire (r : value) : bytes := json_dumps r ++ [x0a].

Definition transcript (log : list event) : list bytes := map wire (sent log).

Inductive result (A : Type) :=
| Ok (a : A) (log : list event)
| Raise (e : exn) (log : list event)
| Blocked (log : list event).
Arguments Ok {A} a log.
Arguments Raise {A} e log.
Arguments Blocked {A} log.

Definition log_of {A} (r : result A) : list event :=
  match r with Ok _ log | Raise _ log | Blocked log => log end.

(** The exit code of the interpreter, when the run ends through [exit]. *)
Definition exit_code {A} (r : result A) : option Z :=
  match r with
  | Raise (SystemExit code) _ => Some code
  | _ => None
  end.

Definition M (A : Type) : Type := list event -> result A.

#[local] Instance M_ret : MRet M := fun A a log => Ok a log.
#[local] Instance M_bind : MBind M := fun A B k m log =>
  match m log with
  | Ok a log1 => k a log1
  | Raise e log1 => Raise e log1
  | Blocked log1 => Blocked log1
  end.

Definition raise {A} (e : exn) : M A := fun log => Raise e log.
Definition emit (ev : event) : M unit := fun log => Ok tt (log ++ [ev]).
Definition print (m : message) : M unit := emit (EvPrint m).
Definition lift {A} (r : error + A) : M A :=
  match r with
  | inr a => mret a
  | inl e => raise (Exception e)
  end.

(** [exit(code)] raises [SystemExit]. *)
Definition exit {A} (code : Z) : M A := raise (SystemExit code).

(** [try: body except Exception as e: handler(e)] *)
Definition try_except {A} (body : M A) (handler : error -> M A) : M A :=
  fun log =>
    match body log with
    | Raise (Exception e) log1 => handler e log1
    | r => r
    end.

Definition Popen : M unit :=
  if spawn_fails then raise (Exception OSError) else emit EvPopen.

(** [proc.stdin.write(...)] and [proc.stdin.flush()], lines 15-16. *)
Definition stdin_write (r : value) : M unit := fun log =>
  if pipe_broken (transcript log) then Raise (Exception BrokenPipeError) log
  else Ok tt (log ++ [EvSend r]).

(** [proc.stdout.readline()], line 18. *)
Definition stdout_readline : M bytes := fun log =>
  match server (transcript log) (length (received log)) with
  | Reads line => Ok line (log ++ [EvRecv line])
  | Blocks => Blocked log
  end.

(** Lines 19-21: an empty line is the end of the file and gives [None];
    any other line is parsed. *)
Definition decode (line : bytes) : error + value :=
  match line with
  | [] => inr VNone
  | _ => match json_loads line with
         | Some v => inr v
         | None => inl ValueError
         end
  end.

(** Lines 7-21. *)
Definition rpc (method : string) (params : value) (req_id : Z) : M value :=
  let req := request method params req_id in
  stdin_write req ;;
  line ← stdout_readline ;
  lift (decode line).

(** Lines 42-46: an [int] is taken as it is, anything else goes through
    [int(...)]. *)
Definition to_int (v : value) : error + value :=
  if isinstance_int v then inr v
  else match py_int v with
       | inr n => inr (VInt n)
       | inl e => inl e
       end.

(** The receiver of [.strip()] has to be a string. *)
Definition as_str (v : value) : error + string :=
  match v with
  | VStr s => inr s
  | _ => inl AttributeError
  end.

(** Lines 34-97, the body of the [try]. *)
Definition conversation : M unit :=
  print MsgStep1 ;;
  res ← rpc "tools/call"
            (tool_call "repl.start" [("command", VStr "python3 -i")]) 1 ;
  result ← lift (getitem res "result") ;
  print (MsgDebug result) ;;
  repl_id ← lift (to_int result) ;
  print (MsgReplId repl_id) ;;
  print MsgStep2 ;;
  rpc "tools/call"
      (tool_call "repl.eval" [("id", repl_id); ("code", VStr "x = 1337")]) 2 ;;
  emit EvSleep ;;
  res ← rpc "tools/call" (tool_call "repl.read" [("id", repl_id)]) 3 ;
  result ← lift (getitem res "result") ;
  print (MsgRead1 result) ;;
  print MsgStep3 ;;
  rpc "tools/call"
      (tool_call "repl.eval" [("id", repl_id); ("code", VStr "print(x)")]) 4 ;;
  emit EvSleep ;;
  res ← rpc "tools/call" (tool_call "repl.read" [("id", repl_id)]) 5 ;
  result ← lift (getitem res "result") ;
  stdout ← lift (getitem result "stdout") ;
  text ← lift (as_str stdout) ;
  print (MsgRead2 (str_strip text)) ;;
  (if contains "1337" text then print MsgSuccess
   else print MsgFailure ;; exit 1) ;;
  print MsgStep4 ;;
  rpc "tools/call" (tool_call "repl.kill" [("id", repl_id)]) 6 ;;
  print MsgPassed.

(** The six requests of a whole conversation, given the REPL id. *)
Definition planned (repl_id : value) : list value :=
  [ request "tools/call"
      (tool_call "repl.start" [("command", VStr "python3 -i")]) 1;
    request "tools/call"
      (tool_call "repl.eval" [("id", repl_id); ("code", VStr "x = 1337")]) 2;
    request "tools/call" (tool_call "repl.read" [("id", repl_id)]) 3;
    request "tools/call"
      (tool_call "repl.eval" [("id", repl_id); ("code", VStr "print(x)")]) 4;
    request "tools/call" (tool_call "repl.read" [("id", repl_id)]) 5;
    request "tools/call" (tool_call "repl.kill" [("id", repl_id)]) 6 ].

(** Lines 23-105. *)
Definition run_test : M unit :=
  print MsgStarting ;;
  Popen ;;
  try_except conversation
    (fun e => print (MsgError e) ;; emit EvKill ;; exit 1) ;;
  emit EvTerminate.


(** *** Symbolic runs *)

#[local] Arguments contains : simpl never.
#[local] Arguments getitem : simpl never.
#[local] Arguments request : simpl never.
#[local] Arguments tool_call : simpl never.
#[local] Arguments transcript : simpl never.
#[local] Arguments decode : simpl never.
#[local] Arguments to_int : simpl never.
#[local] Arguments as_str : simpl never.

Ltac unfold_test :=
  unfold run_test, try_except, conversation, rpc, stdin_write,
    stdout_readline, lift, Popen, print, emit, exit, raise,
    mbind, M_bind, mret, M_ret.

(* Case analysis on every answer of the outside world, innermost first. *)
Ltac split_test :=
  repeat (cbv beta iota;
          match goal with
          | |- context [match ?x with _ => _ end] =>
              lazymatch x with
              | context [match _ with _ => _ end] => fail
              | _ => destruct x eqn:?
              end
          end); cbv beta iota.

Ltac read_log :=
  cbn [log_of app printed sent received signals omap list_omap option_list
       length].


(** *** One call *)


(** *** The whole test *)




(** However the run ends, the requests sent so far are the first ones of
    the six planned requests, in their order: no request is sent before the
    one before it was answered, none twice, and at most six. *)
Theorem requests_in_order :
  let log := log_of (run_test []) in
  exists repl_id,
    sent log = take (length (sent log)) (planned repl_id) /\
    (length (sent log) <= 6)%nat.
Proof.
  unfold_test. split_test; read_log;
    first [ exists VNone; split; [reflexivity|lia]
          | eexists; split; [reflexivity|lia] ].
Qed.

(** No exception raised during the conversation leaves [run_test], and
    the only exit code is 1: the run returns, or blocks in [readline], or
    leaves through [exit(1)], or -- when the server cannot be started, which
    happens before the [try] -- ends with the error of [Popen]. *)
Theorem run_test_outcomes :
  match run_test [] with
  | Ok _ log => last log = Some EvTerminate
  | Blocked log => signals log = []
  | Raise (SystemExit code) _ => code = 1
  | Raise (Exception e) log =>
      e = OSError /\ spawn_fails = true /\ log = [EvPrint MsgStarting]
  end.
Proof.
  unfold_test. split_test; read_log; auto.
Qed.

(** When the server closes its output before the first answer, [rpc]
    returns [None], indexing it raises a [TypeError], and the test ends as
    for any exception: the error is printed, the server killed, the exit
    code 1. *)
Theorem end_of_file_on_first_read :
  spawn_fails = false ->
  pipe_broken [] = false ->
  server [wire (request "tools/call"
                  (tool_call "repl.start" [("command", VStr "python3 -i")])
                  1)] 0 = Reads [] ->
  run_test [] =
  Raise (SystemExit 1)
    [EvPrint MsgStarting; EvPopen; EvPrint MsgStep1;
     EvSend (request "tools/call"
               (tool_call "repl.start" [("command", VStr "python3 -i")]) 1);
     EvRecv []; EvPrint (MsgError TypeError); EvKill].
Proof.
  intros Hspawn Hpipe Hserver. unfold_test. rewrite Hspawn. cbn [app].
  set (req := request "tools/call"
                (tool_call "repl.start" [("command", VStr "python3 -i")]) 1)
    in *.
  assert (H0 : transcript [EvPrint MsgStarting; EvPopen; EvPrint MsgStep1]
               = []) by reflexivity.
  rewrite H0, Hpipe. cbn [app].
  assert (H1 : transcript [EvPrint MsgStarting; EvPopen; EvPrint MsgStep1;
                           EvSend req] = [wire req]) by reflexivity.
  rewrite H1. cbn [received omap list_omap option_list length app].
  rewrite Hserver. reflexivity.
Qed.

End Test.

Arguments Ok {A} a log.
Arguments Raise {A} e log.
Arguments Blocked {A} log.


(** ** A small server to run the test against *)

Module Demo.

(** Every answer is the same object, whose [result] holds a [stdout]. *)
Definition answer (text : string) : value :=
  VDict [("result", VDict [("stdout", VStr text)])].

Definition json_dumps (v : value) : bytes := [x7b; x7d].
Definition json_loads (text : string) (line : bytes) : option value :=
  Some (answer text).
Definition py_int (v : value) : error + Z := inr 7.
Definition str_strip (s : string) : string := s.
Definition pipe_broken (lines : list bytes) : bool := false.

Definition closed (lines : list bytes) (n : nat) : reply := Reads [].

Abbreviation run_test text server :=
  (run_test json_dumps (json_loads text) py_int str_strip false pipe_broken
     server).

End Demo.





Lemma end_of_file_on_first_read_witness :
  false = false /\ Demo.pipe_broken [] = false /\
  Demo.closed
    [wire Demo.json_dumps
       (request "tools/call"
          (tool_call "repl.start" [("command", VStr "python3 -i")]) 1)]
    0 = Reads [] /\
  exit_code (Demo.run_test "1337" Demo.closed []) = Some 1.
Proof.
  split; [reflexivity|]. split; [reflexivity|]. split; [reflexivity|].
  rewrite (end_of_file_on_first_read Demo.json_dumps
             (Demo.json_loads "1337") Demo.py_int Demo.str_strip false
             Demo.pipe_broken Demo.closed eq_refl eq_refl eq_refl).
  reflexivity.
Defined.

End Repl.
